(** * k8s-setup: the per-host provisioning orchestrator of [main.go]

    A shallow embedding of [main.go] (and of [Connect] from the [ssh]
    package) in a state monad over an abstract outside world.  Every call
    that leaves the process (SSH, files, clock, console) goes through the
    [System] record and is recorded, with its result, in a chronological
    trace of events, so that ordering properties of the orchestrator can be
    stated on the trace. *)

From Stdlib Require Import String Ascii List ZArith Bool Lia.
Import ListNotations.
Local Open Scope list_scope.
Local Open Scope string_scope.

Set Implicit Arguments.

(** ** Data model *)

(** A Go [error] value is modelled by its message, [err.Error()]. *)
Definition error := string.

(** A Go pair [(value, error)] where exactly one side is meaningful. *)
Inductive Result (A : Type) : Type :=
| Ok (a : A)
| Err (e : error).
Arguments Ok {A} a.
Arguments Err {A} e.

(** [time.Time]: its zero value, or an instant returned by [time.Now()]. *)
Inductive Time : Type :=
| TimeZero
| TimeAt (unixNano : Z).

(** Handles of the [golang.org/x/crypto/ssh] library. *)
Definition Client := nat.
Definition Session := nat.
Definition Signer := string.

Inductive AuthMethod : Type :=
| ssh_Password (secret : string)
| ssh_PublicKeys (signer : Signer).

Inductive HostKeyCallback : Type :=
| ssh_InsecureIgnoreHostKey.

Record ClientConfig : Type := mkClientConfig {
  User : string;
  Auth : list AuthMethod;
  HostKeyCallback_ : HostKeyCallback;
  Timeout_ : Z
}.

(** [Config], main.go lines 16-42 (nested anonymous structs flattened into
    one record per level). *)
Record SSHConfigT : Type := mkSSHConfig {
  ssh_Username : string;
  ssh_Password_ : string;
  ssh_KeyFile : string;
  ssh_Timeout : Z
}.

Record KubernetesT : Type := mkKubernetes {
  k8s_Version : string;
  k8s_PodCIDR : string;
  k8s_ServiceCIDR : string
}.

Record PrometheusT : Type := mkPrometheus {
  prom_RetentionTime : string;
  prom_StorageClass : string
}.

Record GrafanaT : Type := mkGrafana {
  graf_AdminPassword : string;
  graf_Domain : string
}.

Record MonitoringT : Type := mkMonitoring {
  Prometheus : PrometheusT;
  Grafana : GrafanaT
}.

Record ResourcesT : Type := mkResources {
  res_CPU : string;
  res_Memory : string
}.

Record Config : Type := mkConfig {
  SSHConfig : SSHConfigT;
  Kubernetes : KubernetesT;
  Monitoring : MonitoringT;
  Resources : ResourcesT
}.

(** [VMConfig], main.go lines 45-51. *)
Record VMConfig : Type := mkVMConfig {
  IP : string;
  Username : string;
  Password : string;
  KeyFile : string;
  Timeout : Z
}.

(** [SetupStatus], main.go lines 54-62. *)
Record SetupStatus : Type := mkSetupStatus {
  VMIP : string;
  StartTime : Time;
  EndTime : Time;
  CurrentStep : string;
  Status : string;
  Error : string;
  CompletedSteps : list string
}.

Definition set_CurrentStep (s : SetupStatus) (v : string) : SetupStatus :=
  mkSetupStatus (VMIP s) (StartTime s) (EndTime s) v (Status s) (Error s)
                (CompletedSteps s).

Definition set_Status (s : SetupStatus) (v : string) : SetupStatus :=
  mkSetupStatus (VMIP s) (StartTime s) (EndTime s) (CurrentStep s) v (Error s)
                (CompletedSteps s).

Definition set_Error (s : SetupStatus) (v : string) : SetupStatus :=
  mkSetupStatus (VMIP s) (StartTime s) (EndTime s) (CurrentStep s) (Status s) v
                (CompletedSteps s).

Definition set_EndTime (s : SetupStatus) (v : Time) : SetupStatus :=
  mkSetupStatus (VMIP s) (StartTime s) v (CurrentStep s) (Status s) (Error s)
                (CompletedSteps s).

(** [status.CompletedSteps = append(status.CompletedSteps, v)] *)
Definition append_CompletedSteps (s : SetupStatus) (v : string) : SetupStatus :=
  mkSetupStatus (VMIP s) (StartTime s) (EndTime s) (CurrentStep s) (Status s)
                (Error s) (CompletedSteps s ++ [v]).

(** ** Events: every interaction with the outside world, with its result *)

Inductive Event : Type :=
| EvNow (t : Time)
| EvLoggerPrintf (msg : string)          (* logger.Printf / logger.Fatal: stdout *)
| EvLogPrintf (msg : string)             (* log.Printf: the standard logger *)
| EvReadFile (path : string) (res : Result string)
| EvWriteFile (path data : string) (perm : Z) (res : option error)
| EvMkdirAll (path : string) (perm : Z) (res : option error)
| EvDial (network addr : string) (cfg : ClientConfig) (res : Result Client)
| EvNewSession (c : Client) (res : Result Session)
| EvCombinedOutput (s : Session) (cmd : string) (res : string * option error)
| EvSessionClose (s : Session)
| EvClientClose (c : Client)
| EvSleep (d : Z).

(** ** The outside world

    [W] is the state of everything outside the process (remote hosts, file
    system, clock).  The library calls the program makes are the fields of
    [System]; those that are pure functions of their arguments take no
    world. *)
Record System (W : Type) : Type := mkSystem {
  time_Now : W -> Time * W;
  time_Sleep : Z -> W -> W;
  ioutil_ReadFile : string -> W -> Result string * W;
  ioutil_WriteFile : string -> string -> Z -> W -> option error * W;
  os_MkdirAll : string -> Z -> W -> option error * W;
  ssh_Dial : string -> string -> ClientConfig -> W -> Result Client * W;
  client_NewSession : Client -> W -> Result Session * W;
  session_CombinedOutput : Session -> string -> W -> (string * option error) * W;
  session_Close : Session -> W -> W;
  client_Close : Client -> W -> W;
  ssh_ParsePrivateKey : string -> Result Signer;
  json_Unmarshal : string -> Result Config;
  json_MarshalIndent : SetupStatus -> Result string;
  filepath_Join : string -> string -> string
}.

(** ** Program state and the monad *)

(** The state threaded through [main]: the world, the trace so far (oldest
    event first) and the calls deferred in [main]'s frame (most recent
    first: the order in which Go runs them when [main] returns). *)
Record St (W : Type) : Type := mkSt {
  world : W;
  trace : list Event;
  defers : list Client
}.

Definition M (W A : Type) : Type := St W -> A * St W.

Definition ret {W A} (a : A) : M W A := fun st => (a, st).

Definition bind {W A B} (m : M W A) (k : A -> M W B) : M W B :=
  fun st => let p := m st in k (fst p) (snd p).

Notation "x <- m ;; k" := (bind m (fun x => k))
  (at level 61, m at next level, right associativity).
Notation "m ;;; k" := (bind m (fun _ => k))
  (at level 61, right associativity).

(** An external call whose result comes from the world. *)
Definition call {W A} (ev : A -> Event) (f : W -> A * W) : M W A :=
  fun st =>
    let p := f (world st) in
    (fst p, mkSt (snd p) (trace st ++ [ev (fst p)]) (defers st)).

(** An external call without a result. *)
Definition act {W} (ev : Event) (f : W -> W) : M W unit :=
  fun st => (tt, mkSt (f (world st)) (trace st ++ [ev]) (defers st)).

(** [defer client.Close()]: pushed on the frame of [main]. *)
Definition defer_Close {W} (c : Client) : M W unit :=
  fun st => (tt, mkSt (world st) (trace st) (c :: defers st)).

(** Go's [for _, cmd := range commands { if err := f(cmd); err != nil
    { return err } }], falling through with [nil]. *)
Fixpoint for_range {W} (f : string -> M W (option error)) (commands : list string)
  : M W (option error) :=
  match commands with
  | [] => ret None
  | cmd :: rest =>
      r <- f cmd ;;
      match r with
      | Some err => ret (Some err)
      | None => for_range f rest
      end
  end.

(** ** String constants that contain quotes or line breaks *)

Definition dq : string := String (ascii_of_nat 34) EmptyString.
Definition nl : string := String (ascii_of_nat 10) EmptyString.

(** [int64] wrap-around of [time.Duration] arithmetic. *)
Definition wrap64 (z : Z) : Z :=
  ((z + 9223372036854775808) mod 18446744073709551616 - 9223372036854775808)%Z.

Definition time_Second : Z := 1000000000%Z.

(** Propagation of a non-nil error: [if err != nil { return err }]. *)
Notation "'check' m ;; k" :=
  (bind m (fun r => match r with Some err => ret (Some err) | None => k end))
  (at level 61, m at next level, right associativity).

(** Where one iteration of the loop over the hosts ends: at one of the five
    [continue] statements (with the error the failed call returned) or at
    the end of the loop body (with what [createBackup] returned). *)
Inductive Exit : Type :=
| ExitConnect (err : error)          (* main.go line 122 *)
| ExitRequirements (err : error)     (* line 131 *)
| ExitKubernetes (err : error)       (* line 140 *)
| ExitMonitoring (err : error)       (* line 150 *)
| ExitVerify (err : error)           (* line 160 *)
| ExitEnd (backup : option error).   (* line 176 *)

(** ** The program *)

Section Program.
Context {W : Type}.
Variable sys : System W.

(** *** Library calls *)

Definition logger_Printf (msg : string) : M W unit :=
  act (EvLoggerPrintf msg) (fun w => w).

Definition log_Printf (msg : string) : M W unit :=
  act (EvLogPrintf msg) (fun w => w).

Definition Now : M W Time := call EvNow (time_Now sys).

Definition Sleep (d : Z) : M W unit := act (EvSleep d) (time_Sleep sys d).

Definition ReadFile (path : string) : M W (Result string) :=
  call (EvReadFile path) (ioutil_ReadFile sys path).

Definition WriteFile (path data : string) (perm : Z) : M W (option error) :=
  call (EvWriteFile path data perm) (ioutil_WriteFile sys path data perm).

Definition MkdirAll (path : string) (perm : Z) : M W (option error) :=
  call (EvMkdirAll path perm) (os_MkdirAll sys path perm).

Definition Dial (network addr : string) (cfg : ClientConfig)
  : M W (Result Client) :=
  call (EvDial network addr cfg) (ssh_Dial sys network addr cfg).

Definition NewSession (c : Client) : M W (Result Session) :=
  call (EvNewSession c) (client_NewSession sys c).

Definition CombinedOutput (s : Session) (cmd : string)
  : M W (string * option error) :=
  call (EvCombinedOutput s cmd) (session_CombinedOutput sys s cmd).

Definition Session_Close (s : Session) : M W unit :=
  act (EvSessionClose s) (session_Close sys s).

Definition Client_Close (c : Client) : M W unit :=
  act (EvClientClose c) (client_Close sys c).

(** *** [loadConfig], main.go lines 179-191 *)
Definition loadConfig (path : string) : M W (Result Config) :=
  r <- ReadFile path ;;
  match r with
  | Err err => ret (Err ("failed to read config file: " ++ err))
  | Ok data =>
      match json_Unmarshal sys data with
      | Err err => ret (Err ("failed to parse config file: " ++ err))
      | Ok config => ret (Ok config)
      end
  end.

(** The [if config.KeyFile != ""] block shared by [connectSSH] (main.go
    lines 203-217) and [Connect] (package ssh): it either returns early
    with an error or leaves [sshConfig], possibly with [Auth] replaced. *)
Definition keyFileAuth (config : VMConfig) (sshConfig : ClientConfig)
  : M W (Result ClientConfig) :=
  if negb (KeyFile config =? EmptyString)%string then
    r <- ReadFile (KeyFile config) ;;
    match r with
    | Err err => ret (Err ("failed to read key file: " ++ err))
    | Ok key =>
        match ssh_ParsePrivateKey sys key with
        | Err err => ret (Err ("failed to parse private key: " ++ err))
        | Ok signer =>
            ret (Ok (mkClientConfig (User sshConfig) [ssh_PublicKeys signer]
                       (HostKeyCallback_ sshConfig) (Timeout_ sshConfig)))
        end
    end
  else ret (Ok sshConfig).

(** *** [connectSSH], main.go lines 193-220 *)
Definition connectSSH (config : VMConfig) : M W (Result Client) :=
  let sshConfig :=
    mkClientConfig (Username config) [ssh_Password (Password config)]
                   ssh_InsecureIgnoreHostKey (Timeout config) in
  r <- keyFileAuth config sshConfig ;;
  match r with
  | Err err => ret (Err err)
  | Ok sshConfig => Dial "tcp" (IP config ++ ":22") sshConfig
  end.

(** *** [Connect], package ssh (kubernetes.go lines 110-142) *)
Definition ssh_Connect (config : VMConfig) : M W (Result Client) :=
  let sshConfig :=
    mkClientConfig (Username config) [ssh_Password (Password config)]
                   ssh_InsecureIgnoreHostKey (Timeout config) in
  r <- keyFileAuth config sshConfig ;;
  match r with
  | Err err => ret (Err err)
  | Ok sshConfig =>
      d <- Dial "tcp" (IP config ++ ":22") sshConfig ;;
      match d with
      | Err err => ret (Err ("failed to dial: " ++ err))
      | Ok client => ret (Ok client)
      end
  end.

(** *** [executeCommand], main.go lines 222-235 *)
Definition executeCommand (client : Client) (command : string)
  : M W (string * option error) :=
  s <- NewSession client ;;
  match s with
  | Err err => ret (EmptyString, Some err)
  | Ok session =>
      r <- CombinedOutput session command ;;
      Session_Close session ;;;                    (* defer session.Close() *)
      match snd r with
      | Some err => ret (fst r, Some ("command failed: " ++ err))
      | None => ret (fst r, None)
      end
  end.

(** *** [checkSystemRequirements], main.go lines 237-255 *)
Definition checkSystemRequirements_commands : list string :=
  [ "uname -a"; "free -h"; "df -h"; "nproc"; "cat /etc/os-release" ].

Definition checkSystemRequirements (client : Client) : M W (option error) :=
  for_range
    (fun cmd =>
       r <- executeCommand client cmd ;;
       match snd r with
       | Some err => ret (Some ("system check failed: " ++ err))
       | None =>
           log_Printf ("System check output for " ++ cmd ++ ":" ++ nl ++ fst r) ;;;
           ret None
       end)
    checkSystemRequirements_commands.

(** *** [setupKubernetes], main.go lines 257-318 *)
Definition daemon_json : string :=
  "cat > /etc/docker/daemon.json << EOF" ++ nl ++
  "{" ++ nl ++
  "  " ++ dq ++ "exec-opts" ++ dq ++ ": [" ++ dq ++ "native.cgroupdriver=systemd"
       ++ dq ++ "]," ++ nl ++
  "  " ++ dq ++ "log-driver" ++ dq ++ ": " ++ dq ++ "json-file" ++ dq ++ "," ++ nl ++
  "  " ++ dq ++ "log-opts" ++ dq ++ ": {" ++ nl ++
  "    " ++ dq ++ "max-size" ++ dq ++ ": " ++ dq ++ "100m" ++ dq ++ nl ++
  "  }," ++ nl ++
  "  " ++ dq ++ "storage-driver" ++ dq ++ ": " ++ dq ++ "overlay2" ++ dq ++ nl ++
  "}" ++ nl ++
  "EOF".

Definition setupKubernetes_commands (config : Config) : list string :=
  [ "apt-get update && apt-get upgrade -y";
    "apt-get install -y apt-transport-https ca-certificates curl software-properties-common";
    "curl -fsSL https://download.docker.com/linux/ubuntu/gpg | apt-key add -";
    "add-apt-repository " ++ dq
      ++ "deb [arch=amd64] https://download.docker.com/linux/ubuntu $(lsb_release -cs) stable"
      ++ dq;
    "apt-get update && apt-get install -y docker-ce docker-ce-cli containerd.io";
    "mkdir -p /etc/docker";
    daemon_json;
    "systemctl daemon-reload";
    "systemctl restart docker";
    "curl -s https://packages.cloud.google.com/apt/doc/apt-key.gpg | apt-key add -";
    "echo " ++ dq ++ "deb https://apt.kubernetes.io/ kubernetes-xenial main" ++ dq
      ++ " > /etc/apt/sources.list.d/kubernetes.list";
    "apt-get update && apt-get install -y kubelet=" ++ k8s_Version (Kubernetes config)
      ++ " kubeadm=" ++ k8s_Version (Kubernetes config)
      ++ " kubectl=" ++ k8s_Version (Kubernetes config);
    "kubeadm init --pod-network-cidr=" ++ k8s_PodCIDR (Kubernetes config)
      ++ " --service-cidr=" ++ k8s_ServiceCIDR (Kubernetes config);
    "mkdir -p $HOME/.kube && cp -i /etc/kubernetes/admin.conf $HOME/.kube/config && chown $(id -u):$(id -g) $HOME/.kube/config";
    "kubectl apply -f https://docs.projectcalico.org/manifests/calico.yaml" ].

Definition setupKubernetes (client : Client) (config : Config)
  : M W (option error) :=
  for_range
    (fun cmd =>
       r <- executeCommand client cmd ;;
       match snd r with
       | Some err =>
           ret (Some ("failed to execute command '" ++ cmd ++ "': " ++ err
                        ++ nl ++ "Output: " ++ fst r))
       | None => Sleep (2 * time_Second) ;;; ret None
       end)
    (setupKubernetes_commands config).

(** *** [setupMonitoring], main.go lines 320-389 *)
Definition helmCommands : list string :=
  [ "curl https://raw.githubusercontent.com/helm/helm/master/scripts/get-helm-3 | bash";
    "helm repo add prometheus-community https://prometheus-community.github.io/helm-charts";
    "helm repo update" ].

Definition prometheusValues (config : Config) : string :=
  nl ++
  "prometheus:" ++ nl ++
  "  prometheusSpec:" ++ nl ++
  "    retention: " ++ prom_RetentionTime (Prometheus (Monitoring config)) ++ nl ++
  "    storageSpec:" ++ nl ++
  "      volumeClaimTemplate:" ++ nl ++
  "        spec:" ++ nl ++
  "          storageClassName: " ++ prom_StorageClass (Prometheus (Monitoring config))
     ++ nl ++
  "          accessModes: [" ++ dq ++ "ReadWriteOnce" ++ dq ++ "]" ++ nl ++
  "          resources:" ++ nl ++
  "            requests:" ++ nl ++
  "              storage: 10Gi" ++ nl.

Definition installCmd : string :=
  "helm install prometheus prometheus-community/kube-prometheus-stack -f prometheus-values.yaml --namespace monitoring".

Definition grafanaPatch : string :=
  "kubectl patch deployment prometheus-grafana -n monitoring --type=json -p='[{"
    ++ dq ++ "op" ++ dq ++ ": " ++ dq ++ "add" ++ dq ++ ", "
    ++ dq ++ "path" ++ dq ++ ": " ++ dq ++ "/spec/template/spec/containers/0/env/0" ++ dq ++ ", "
    ++ dq ++ "value" ++ dq ++ ": {"
    ++ dq ++ "name" ++ dq ++ ": " ++ dq ++ "GF_SECURITY_ADMIN_PASSWORD" ++ dq ++ ", "
    ++ dq ++ "valueFrom" ++ dq ++ ": {"
    ++ dq ++ "secretKeyRef" ++ dq ++ ": {"
    ++ dq ++ "name" ++ dq ++ ": " ++ dq ++ "grafana-admin" ++ dq ++ ", "
    ++ dq ++ "key" ++ dq ++ ": " ++ dq ++ "admin-password" ++ dq
    ++ "}}}}]'".

Definition grafanaCommands (config : Config) : list string :=
  [ "kubectl create secret generic grafana-admin --from-literal=admin-password="
      ++ graf_AdminPassword (Grafana (Monitoring config)) ++ " -n monitoring";
    grafanaPatch ].

Definition waitCommands : list string :=
  [ "kubectl wait --for=condition=ready pod -l app.kubernetes.io/name=prometheus -n monitoring --timeout=300s";
    "kubectl wait --for=condition=ready pod -l app.kubernetes.io/name=grafana -n monitoring --timeout=300s" ].

(** [if _, err := executeCommand(client, cmd); err != nil
    { return fmt.Errorf(prefix + "%v", err) }] *)
Definition run_or (prefix : string) (client : Client) (cmd : string)
  : M W (option error) :=
  r <- executeCommand client cmd ;;
  match snd r with
  | Some err => ret (Some (prefix ++ err))
  | None => ret None
  end.

Definition setupMonitoring (client : Client) (config : Config)
  : M W (option error) :=
  check run_or "failed to create monitoring namespace: " client
               "kubectl create namespace monitoring" ;;
  check for_range (run_or "failed to setup Helm: " client) helmCommands ;;
  e <- WriteFile "prometheus-values.yaml" (prometheusValues config) 420 ;;
  match e with
  | Some err => ret (Some ("failed to create Prometheus values file: " ++ err))
  | None =>
      check run_or "failed to install Prometheus stack: " client installCmd ;;
      check for_range (run_or "failed to configure Grafana: " client)
                      (grafanaCommands config) ;;
      check for_range (run_or "failed to wait for pods: " client) waitCommands ;;
      ret None
  end.

(** *** [verifySetup], main.go lines 391-408 *)
Definition verifySetup_commands : list string :=
  [ "kubectl get nodes"; "kubectl get pods -A"; "kubectl get services -A";
    "kubectl get deployments -A" ].

Definition verifySetup (client : Client) : M W (option error) :=
  for_range
    (fun cmd =>
       r <- executeCommand client cmd ;;
       match snd r with
       | Some err =>
           ret (Some ("verification failed for command '" ++ cmd ++ "': " ++ err))
       | None =>
           log_Printf ("Verification output for " ++ cmd ++ ":" ++ nl ++ fst r) ;;;
           ret None
       end)
    verifySetup_commands.

(** *** [createBackup], main.go lines 410-427 *)
Definition backupDir : string := "/root/k8s-backup".

Definition createBackup_commands : list string :=
  [ "mkdir -p " ++ backupDir;
    "kubectl get all -A -o yaml > " ++ backupDir ++ "/all-resources.yaml";
    "kubectl get configmaps -A -o yaml > " ++ backupDir ++ "/configmaps.yaml";
    "kubectl get secrets -A -o yaml > " ++ backupDir ++ "/secrets.yaml";
    "tar -czf " ++ backupDir ++ "/k8s-backup.tar.gz " ++ backupDir ].

Definition createBackup (client : Client) : M W (option error) :=
  for_range (run_or "backup failed: " client) createBackup_commands.

(** *** [saveStatus], main.go lines 429-437 *)
Definition statusFile (vmIP : string) : string :=
  filepath_Join sys "status" (vmIP ++ ".json").

Definition saveStatus (status : SetupStatus) : M W (option error) :=
  let filename := statusFile (VMIP status) in
  match json_MarshalIndent sys status with
  | Err err => ret (Some ("failed to marshal status: " ++ err))
  | Ok data => WriteFile filename data 420
  end.

(** *** [main], main.go lines 70-177 *)

(** The [VMConfig] literal of lines 108-114. *)
Definition vmConfig (config : Config) (ip : string) : VMConfig :=
  mkVMConfig ip
             (ssh_Username (SSHConfig config))
             (ssh_Password_ (SSHConfig config))
             (ssh_KeyFile (SSHConfig config))
             (wrap64 (ssh_Timeout (SSHConfig config) * time_Second)).

(** One iteration of [for _, ip := range ips] (lines 96-176).  It returns
    the value of [*status] when the iteration ends and the exit taken.
    [logger.status = status] (line 104) only stores the pointer, which
    nothing reads, and is left out. *)
Definition main_loop_body (config : Config) (ip : string)
  : M W (SetupStatus * Exit) :=
  now <- Now ;;
  let status :=
    mkSetupStatus ip now TimeZero "Initializing" "In Progress" EmptyString [] in
  logger_Printf ("Starting setup for VM " ++ ip) ;;;
  c <- connectSSH (vmConfig config ip) ;;
  match c with
  | Err err =>
      let status := set_Status status "Failed" in
      let status := set_Error status ("SSH connection failed: " ++ err) in
      saveStatus status ;;;
      ret (status, ExitConnect err)
  | Ok client =>
      defer_Close client ;;;
      e <- checkSystemRequirements client ;;
      match e with
      | Some err =>
          let status := set_Status status "Failed" in
          let status :=
            set_Error status ("System requirements check failed: " ++ err) in
          saveStatus status ;;;
          ret (status, ExitRequirements err)
      | None =>
      let status := set_CurrentStep status "Setting up Kubernetes" in
      e <- setupKubernetes client config ;;
      match e with
      | Some err =>
          let status := set_Status status "Failed" in
          let status := set_Error status ("Kubernetes setup failed: " ++ err) in
          saveStatus status ;;;
          ret (status, ExitKubernetes err)
      | None =>
      let status := append_CompletedSteps status "kubernetes" in
      let status := set_CurrentStep status "Setting up monitoring" in
      e <- setupMonitoring client config ;;
      match e with
      | Some err =>
          let status := set_Status status "Failed" in
          let status := set_Error status ("Monitoring setup failed: " ++ err) in
          saveStatus status ;;;
          ret (status, ExitMonitoring err)
      | None =>
      let status := append_CompletedSteps status "monitoring" in
      let status := set_CurrentStep status "Verifying setup" in
      e <- verifySetup client ;;
      match e with
      | Some err =>
          let status := set_Status status "Failed" in
          let status := set_Error status ("Verification failed: " ++ err) in
          saveStatus status ;;;
          ret (status, ExitVerify err)
      | None =>
      let status := append_CompletedSteps status "verification" in
      let status := set_CurrentStep status "Creating backup" in
      b <- createBackup client ;;
      status <- match b with
                | Some err =>
                    logger_Printf ("Warning: Backup creation failed: " ++ err) ;;;
                    ret status
                | None => ret (append_CompletedSteps status "backup")
                end ;;
      let status := set_Status status "Completed" in
      now <- Now ;;
      let status := set_EndTime status now in
      saveStatus status ;;;
      logger_Printf ("Setup completed successfully for VM " ++ ip) ;;;
      ret (status, ExitEnd b)
      end end end end
  end.

(** The loop over the hosts; the iterations' results are dropped, as in
    the source. *)
Fixpoint main_loop (config : Config) (ips : list string) : M W unit :=
  match ips with
  | [] => ret tt
  | ip :: rest => main_loop_body config ip ;;; main_loop config rest
  end.

(** The deferred [client.Close()] calls, run when [main] returns, the
    last deferred first. *)
Fixpoint close_all (cs : list Client) : M W unit :=
  match cs with
  | [] => ret tt
  | c :: rest => Client_Close c ;;; close_all rest
  end.

Definition run_defers : M W unit :=
  fun st => close_all (defers st) (mkSt (world st) (trace st) []).

(** [logger.Fatal] / [logger.Fatalf]: print, then [os.Exit(1)].  Every use
    is in [main] before the first [defer], so nothing is pending. *)
Definition logger_Fatal (msg : string) : M W Z :=
  logger_Printf msg ;;; ret 1%Z.

(** [main] on [os.Args]; the result is the exit status of the process. *)
Definition main (os_Args : list string) : M W Z :=
  if (length os_Args <? 2)%nat then
    logger_Fatal "Usage: ./k8s-setup <config.json> <ip1> <ip2> <ip3> ..."
  else
    r <- loadConfig (nth 1 os_Args EmptyString) ;;
    match r with
    | Err err => logger_Fatal ("Failed to load configuration: " ++ err)
    | Ok config =>
        let ips := skipn 2 os_Args in
        e <- MkdirAll "status" 493 ;;
        match e with
        | Some err => logger_Fatal ("Failed to create status directory: " ++ err)
        | None =>
            main_loop config ips ;;;
            run_defers ;;;
            ret 0%Z
        end
    end.
End Program.

(** ** A scripted world for concrete runs

    The world is a counter (the next handle and the clock).  A connection
    to an address in [bad_hosts] is refused, a command in [bad_cmds] fails,
    and every write fails when [disk_full] is set. *)
Module Script.
Definition inb (x : string) (l : list string) : bool :=
  existsb (String.eqb x) l.

Definition config : Config :=
  mkConfig (mkSSHConfig "root" "secret" EmptyString 30)
           (mkKubernetes "1.24.0-00" "10.244.0.0/16" "10.96.0.0/12")
           (mkMonitoring (mkPrometheus "15d" "standard")
                         (mkGrafana "admin" "grafana.example.com"))
           (mkResources "2" "4Gi").

Definition sys (bad_hosts bad_cmds : list string) (disk_full : bool)
  : System nat :=
  {| time_Now := fun w => (TimeAt (Z.of_nat (S w)), S w);
     time_Sleep := fun _ w => w;
     ioutil_ReadFile := fun path w =>
       (if (path =? "config.json")%string then Ok "{}"
        else Err ("open " ++ path ++ ": no such file or directory"), w);
     ioutil_WriteFile := fun path _ _ w =>
       (if disk_full then Some ("write " ++ path ++ ": no space left on device")
        else None, w);
     os_MkdirAll := fun _ _ w => (None, w);
     ssh_Dial := fun _ addr _ w =>
       (if inb addr bad_hosts
        then Err ("dial tcp " ++ addr ++ ": connection refused")
        else Ok (S w), S w);
     client_NewSession := fun _ w => (Ok (S w), S w);
     session_CombinedOutput := fun _ cmd w =>
       (if inb cmd bad_cmds then ("boom", Some "exit status 1")
        else ("ok", None), w);
     session_Close := fun _ w => w;
     client_Close := fun _ w => w;
     ssh_ParsePrivateKey := fun key =>
       if (key =? EmptyString)%string then Err "ssh: no key found" else Ok key;
     json_Unmarshal := fun _ => Ok config;
     json_MarshalIndent := fun s => Ok (VMIP s ++ ":" ++ Status s);
     filepath_Join := fun a b => a ++ "/" ++ b |}.

Definition st0 : St nat := mkSt 0 [] [].

(** Nothing fails. *)
Definition ok : System nat := sys [] [] false.

(** The third command of [setupKubernetes] fails. *)
Definition docker_key : string :=
  "curl -fsSL https://download.docker.com/linux/ubuntu/gpg | apt-key add -".

(** The connection to [h1] is refused. *)
Definition refused : System nat := sys ["h1:22"] [] false.
End Script.

Unset Implicit Arguments.

(** ** Traces of computations *)

(** The events a computation adds to the trace when run from [st]. *)
Definition events_of {W A} (m : M W A) (st : St W) : list Event :=
  skipn (length (trace st)) (trace (snd (m st))).

(** Classes of events. *)
Definition exec_event (e : Event) : Prop :=
  match e with
  | EvNewSession _ _ | EvCombinedOutput _ _ _ | EvSessionClose _ => True
  | _ => False
  end.

Definition console_event (e : Event) : Prop :=
  match e with
  | EvLoggerPrintf _ | EvLogPrintf _ => True
  | _ => False
  end.

Definition close_event (e : Event) : Prop :=
  match e with
  | EvClientClose _ => True
  | _ => False
  end.

Definition write_to (path : string) (e : Event) : Prop :=
  match e with
  | EvWriteFile p _ _ _ => p = path
  | _ => False
  end.

(** What the five phases may do: remote commands, the standard logger,
    sleeping, and writing the rendered values file. *)
Definition phase_event (e : Event) : Prop :=
  match e with
  | EvNewSession _ _ | EvCombinedOutput _ _ _ | EvSessionClose _
  | EvLogPrintf _ | EvSleep _ => True
  | EvWriteFile p _ _ _ => p = "prometheus-values.yaml"
  | _ => False
  end.

(** What [connectSSH] may do. *)
Definition connect_event (e : Event) : Prop :=
  match e with
  | EvReadFile _ _ | EvDial _ _ _ _ => True
  | _ => False
  end.

(** [emits P m]: run from any state, [m] only appends events, all in [P]. *)
Definition emits {W A} (P : Event -> Prop) (m : M W A) : Prop :=
  forall st, exists tr, trace (snd (m st)) = (trace st ++ tr)%list /\ Forall P tr.

(** Everything one iteration may do before it saves the record. *)
Definition host_event (e : Event) : Prop :=
  match e with
  | EvNow _ | EvLoggerPrintf _ => True
  | EvClientClose _ | EvMkdirAll _ _ _ => False
  | _ => connect_event e \/ phase_event e
  end.

(** What is printed after the final save of a completed run (line 175). *)
Definition finish (ip : string) (ex : Exit) : list Event :=
  match ex with
  | ExitEnd _ => [EvLoggerPrintf ("Setup completed successfully for VM " ++ ip)]
  | _ => []
  end.

(** Boolean classes, for filtering concrete traces. *)
Definition is_console (e : Event) : bool :=
  match e with
  | EvLoggerPrintf _ | EvLogPrintf _ => true
  | _ => false
  end.

Definition is_connection (e : Event) : bool :=
  match e with
  | EvDial _ _ _ _ | EvClientClose _ => true
  | _ => false
  end.

(** ** The runs of one host

    [Reaches] and [HostRun] describe one iteration of the loop by the results
    of the calls it makes; [main_loop_body_run] shows that the code follows
    them. *)

Inductive Stage : Type :=
| Connected | Checked | Installed | Monitored | Verified.

Section HostRuns.
Context {W : Type}.
Variable sys : System W.
Variable config : Config.
Variable ip : string.
Variable st : St W.

(** The state in which [connectSSH] is called, and the start time. *)
Definition start_state : St W :=
  snd (logger_Printf ("Starting setup for VM " ++ ip) (snd (Now sys st))).

Definition start_time : Time := fst (Now sys st).

(** [Reaches client g st1]: the connection gave [client] and every phase
    up to stage [g] returned [nil], leaving the state [st1]. *)
Inductive Reaches (client : Client) : Stage -> St W -> Prop :=
| ReachConnected st1 :
    connectSSH sys (vmConfig config ip) start_state = (Ok client, st1) ->
    Reaches client Connected (snd (defer_Close client st1))
| ReachChecked st1 st2 :
    Reaches client Connected st1 ->
    checkSystemRequirements sys client st1 = (None, st2) ->
    Reaches client Checked st2
| ReachInstalled st1 st2 :
    Reaches client Checked st1 ->
    setupKubernetes sys client config st1 = (None, st2) ->
    Reaches client Installed st2
| ReachMonitored st1 st2 :
    Reaches client Installed st1 ->
    setupMonitoring sys client config st1 = (None, st2) ->
    Reaches client Monitored st2
| ReachVerified st1 st2 :
    Reaches client Monitored st1 ->
    verifySetup sys client st1 = (None, st2) ->
    Reaches client Verified st2.

(** A failed record: the fields are those of the initial record except
    [CurrentStep], [Status], [Error] and [CompletedSteps]. *)
Definition failed (step err : string) (done : list string) : SetupStatus :=
  mkSetupStatus ip start_time TimeZero step "Failed" err done.

(** The state after the backup branch (lines 166-170). *)
Definition after_backup (b : option error) (st2 : St W) : St W :=
  match b with
  | Some err => snd (logger_Printf ("Warning: Backup creation failed: " ++ err) st2)
  | None => st2
  end.

Definition completed (b : option error) (st3 : St W) : SetupStatus :=
  mkSetupStatus ip start_time (fst (Now sys st3)) "Creating backup" "Completed"
    EmptyString
    (match b with
     | Some _ => ["kubernetes"; "monitoring"; "verification"]
     | None => ["kubernetes"; "monitoring"; "verification"; "backup"]
     end).

(** [HostRun s ex st1 st']: the iteration ends with the record [s] at the
    exit [ex]; [saveStatus s] is called in [st1] and the final state is
    [st']. *)
Inductive HostRun : SetupStatus -> Exit -> St W -> St W -> Prop :=
| RunConnectFailed err st1 s :
    connectSSH sys (vmConfig config ip) start_state = (Err err, st1) ->
    s = failed "Initializing" ("SSH connection failed: " ++ err) [] ->
    HostRun s (ExitConnect err) st1 (snd (saveStatus sys s st1))
| RunRequirementsFailed client st1 err st2 s :
    Reaches client Connected st1 ->
    checkSystemRequirements sys client st1 = (Some err, st2) ->
    s = failed "Initializing" ("System requirements check failed: " ++ err) [] ->
    HostRun s (ExitRequirements err) st2 (snd (saveStatus sys s st2))
| RunKubernetesFailed client st1 err st2 s :
    Reaches client Checked st1 ->
    setupKubernetes sys client config st1 = (Some err, st2) ->
    s = failed "Setting up Kubernetes" ("Kubernetes setup failed: " ++ err) [] ->
    HostRun s (ExitKubernetes err) st2 (snd (saveStatus sys s st2))
| RunMonitoringFailed client st1 err st2 s :
    Reaches client Installed st1 ->
    setupMonitoring sys client config st1 = (Some err, st2) ->
    s = failed "Setting up monitoring" ("Monitoring setup failed: " ++ err)
               ["kubernetes"] ->
    HostRun s (ExitMonitoring err) st2 (snd (saveStatus sys s st2))
| RunVerifyFailed client st1 err st2 s :
    Reaches client Monitored st1 ->
    verifySetup sys client st1 = (Some err, st2) ->
    s = failed "Verifying setup" ("Verification failed: " ++ err)
               ["kubernetes"; "monitoring"] ->
    HostRun s (ExitVerify err) st2 (snd (saveStatus sys s st2))
| RunEnd client st1 b st2 st3 s :
    Reaches client Verified st1 ->
    createBackup sys client st1 = (b, st2) ->
    st3 = snd (Now sys (after_backup b st2)) ->
    s = completed b (after_backup b st2) ->
    HostRun s (ExitEnd b) st3
      (snd (logger_Printf ("Setup completed successfully for VM " ++ ip)
              (snd (saveStatus sys s st3)))).
End HostRuns.

(** ** The packages

    The functions of packages config, ssh, kubernetes, monitoring and
    backup that work on the events modelled above.  [CheckSystemRequirements]
    (ssh) and [Verify] (kubernetes) print with [fmt.Printf], which is not
    among the events, and are left out. *)

Section Packages.
Context {W : Type}.
Variable sys : System W.







End Packages.

(** ** More on traces *)

(** The commands run in a trace, each with the error of its run. *)
Fixpoint run_commands (tr : list Event) : list (string * option error) :=
  match tr with
  | [] => []
  | EvCombinedOutput _ cmd r :: rest => (cmd, snd r) :: run_commands rest
  | _ :: rest => run_commands rest
  end.

(** Commands that all succeeded. *)
Definition ok_runs (cmds : list string) : list (string * option error) :=
  map (fun cmd => (cmd, @None error)) cmds.

(** [stops_at_first_failure cmds r runs]: with result [r], a function that
    works through [cmds] ran them in order and all succeeded ([r] is [nil]),
    or ran a proper prefix successfully and then either could not start the
    next command or ran it and saw it fail; nothing ran after that. *)
Definition stops_at_first_failure
  (cmds : list string) (r : option error) (runs : list (string * option error))
  : Prop :=
  match r with
  | None => runs = ok_runs cmds
  | Some _ =>
      exists pre cmd post,
        cmds = (pre ++ cmd :: post)%list /\
        (runs = ok_runs pre \/
         exists e, runs = (ok_runs pre ++ [(cmd, Some e)])%list)
  end.

(** The clients of the successful dials of a trace, and the clients closed. *)
Fixpoint opened (tr : list Event) : list Client :=
  match tr with
  | [] => []
  | EvDial _ _ _ (Ok c) :: rest => c :: opened rest
  | _ :: rest => opened rest
  end.

(** The messages printed through [logger]. *)
Fixpoint logger_output (tr : list Event) : list string :=
  match tr with
  | [] => []
  | EvLoggerPrintf msg :: rest => msg :: logger_output rest
  | _ :: rest => logger_output rest
  end.

(** The data written to files other than the values file, with the path and
    the result of each write. *)
Fixpoint status_writes (tr : list Event) : list (string * string * option error) :=
  match tr with
  | [] => []
  | EvWriteFile path data _ res :: rest =>
      if (path =? "prometheus-values.yaml")%string then status_writes rest
      else (path, data, res) :: status_writes rest
  | _ :: rest => status_writes rest
  end.

(** Every session that is opened runs one command and is closed right
    after it. *)
Inductive SessionsClosed : list Event -> Prop :=
| SessionsNil : SessionsClosed []
| SessionsOther e tr :
    ~ exec_event e -> SessionsClosed tr -> SessionsClosed (e :: tr)
| SessionsRefused c err tr :
    SessionsClosed tr -> SessionsClosed (EvNewSession c (Err err) :: tr)
| SessionsOne c s cmd r tr :
    SessionsClosed tr ->
    SessionsClosed (EvNewSession c (Ok s) :: EvCombinedOutput s cmd r
                      :: EvSessionClose s :: tr).

(** [produces Q m]: run from any state, [m] only appends events, and what
    it appends satisfies [Q]. *)
Definition produces {W A} (Q : list Event -> Prop) (m : M W A) : Prop :=
  forall st, exists tr, trace (snd (m st)) = (trace st ++ tr)%list /\ Q tr.

(** [keeps_defers m]: [m] defers nothing. *)
Definition keeps_defers {W A} (m : M W A) : Prop :=
  forall st, defers (snd (m st)) = defers st.

(** The order in which [setupMonitoring] runs its commands. *)
Definition setupMonitoring_commands (config : Config) : list string :=
  ("kubectl create namespace monitoring" :: helmCommands)
    ++ installCmd :: grafanaCommands config ++ waitCommands.

(** The steps a record can list, in pipeline order. *)
Definition all_steps : list string :=
  ["kubernetes"; "monitoring"; "verification"; "backup"].

(** [one_command f]: [f cmd] runs [cmd] at most once and nothing else, and
    returns [nil] exactly when it ran it successfully. *)
Definition one_command {W} (f : string -> M W (option error)) : Prop :=
  forall cmd,
    emits (fun _ => True) (f cmd) /\
    forall st,
      match fst (f cmd st) with
      | None => run_commands (events_of (f cmd) st) = [(cmd, None)]
      | Some _ =>
          run_commands (events_of (f cmd) st) = [] \/
          exists e, run_commands (events_of (f cmd) st) = [(cmd, Some e)]
      end.

(** [Stops cmds m]: [m] works through [cmds] and stops at the first
    failure. *)
Definition Stops {W} (cmds : list string) (m : M W (option error)) : Prop :=
  emits (fun _ => True) m /\
  forall st,
    stops_at_first_failure cmds (fst (m st)) (run_commands (events_of m st)).

(** What a completed run does between the backup and the save: the warning
    of a failed backup, and reading the clock for [EndTime]. *)
Definition host_tail (s : SetupStatus) (ex : Exit) : list Event :=
  match ex with
  | ExitEnd b =>
      match b with
      | Some err => [EvLoggerPrintf ("Warning: Backup creation failed: " ++ err)]
      | None => []
      end ++ [EvNow (EndTime s)]
  | _ => []
  end.

(** What [logger] prints for one host after the start message. *)
Definition host_messages (ip : string) (ex : Exit) : list string :=
  match ex with
  | ExitEnd (Some err) =>
      ["Warning: Backup creation failed: " ++ err;
       "Setup completed successfully for VM " ++ ip]
  | ExitEnd None => ["Setup completed successfully for VM " ++ ip]
  | _ => []
  end.

(** The number of steps a record lists, by the exit taken. *)
Definition steps_done (ex : Exit) : nat :=
  match ex with
  | ExitConnect _ | ExitRequirements _ | ExitKubernetes _ => 0
  | ExitMonitoring _ => 1
  | ExitVerify _ => 2
  | ExitEnd (Some _) => 3
  | ExitEnd None => 4
  end.

(** The stage at which an iteration ended. *)
Definition stage_of (ex : Exit) : nat :=
  match ex with
  | ExitConnect _ => 0
  | ExitRequirements _ => 1
  | ExitKubernetes _ => 2
  | ExitMonitoring _ => 3
  | ExitVerify _ => 4
  | ExitEnd _ => 5
  end.

(** The commands of the five phases, in the order of the pipeline, and
    those of the phases passed at a stage. *)
Definition pipeline_commands (config : Config) : list string :=
  checkSystemRequirements_commands ++ setupKubernetes_commands config
    ++ setupMonitoring_commands config ++ verifySetup_commands
    ++ createBackup_commands.

Definition commands_upto (config : Config) (g : Stage) : list string :=
  match g with
  | Connected => []
  | Checked => checkSystemRequirements_commands
  | Installed => checkSystemRequirements_commands ++ setupKubernetes_commands config
  | Monitored =>
      checkSystemRequirements_commands ++ setupKubernetes_commands config
        ++ setupMonitoring_commands config
  | Verified =>
      checkSystemRequirements_commands ++ setupKubernetes_commands config
        ++ setupMonitoring_commands config ++ verifySetup_commands
  end.

(** A session, if the event opens one, is opened on [client]. *)
Definition on_client (client : Client) (e : Event) : Prop :=
  match e with
  | EvNewSession c _ => c = client
  | _ => True
  end.

(** [nil] when the whole pipeline succeeded, an error otherwise. *)
Definition pipeline_result (ex : Exit) : option error :=
  match ex with
  | ExitConnect err | ExitRequirements err | ExitKubernetes err
  | ExitMonitoring err | ExitVerify err => Some err
  | ExitEnd b => b
  end.

(** * Lemmas *)

Section TraceLemmas.
Context {W : Type}.
Implicit Types (st : St W) (P Q : Event -> Prop).

Lemma skipn_length_app {A : Type} (l tr : list A) :
  skipn (length l) (l ++ tr)%list = tr.
Proof. induction l as [|x l IH]; simpl; auto. Qed.

Lemma events_of_intro {A} (m : M W A) st tr :
  trace (snd (m st)) = (trace st ++ tr)%list -> events_of m st = tr.
Proof. unfold events_of. intros ->. apply skipn_length_app. Qed.

Lemma emits_events {A P} {m : M W A} st :
  emits P m ->
  trace (snd (m st)) = (trace st ++ events_of m st)%list /\
  Forall P (events_of m st).
Proof.
  intros H. destruct (H st) as (tr & E & F).
  rewrite (events_of_intro m st tr E). auto.
Qed.

Lemma emits_ret {A} P (a : A) : emits P (ret (W := W) a).
Proof. intros st. exists []. simpl. rewrite app_nil_r. auto. Qed.

Lemma emits_bind {A B P} (m : M W A) (k : A -> M W B) :
  emits P m -> (forall a, emits P (k a)) -> emits P (bind m k).
Proof.
  intros Hm Hk st. unfold bind; cbn zeta.
  destruct (Hm st) as (t1 & E1 & F1).
  destruct (Hk (fst (m st)) (snd (m st))) as (t2 & E2 & F2).
  exists (t1 ++ t2)%list. rewrite E2, E1, app_assoc. split; auto.
  apply Forall_app; auto.
Qed.

Lemma emits_call {A} P (ev : A -> Event) (f : W -> A * W) :
  (forall a, P (ev a)) -> emits P (call ev f).
Proof. intros H st. eexists. split; [reflexivity|]. constructor; auto. Qed.

Lemma emits_act P (ev : Event) (f : W -> W) : P ev -> emits P (act ev f).
Proof. intros H st. eexists. split; [reflexivity|]. constructor; auto. Qed.

Lemma emits_defer P (c : Client) : emits P (defer_Close (W := W) c).
Proof. intros st. exists []. simpl. rewrite app_nil_r. auto. Qed.

Lemma emits_weaken {A} P Q (m : M W A) :
  (forall e, P e -> Q e) -> emits P m -> emits Q m.
Proof.
  intros PQ H st. destruct (H st) as (tr & E & F).
  exists tr. split; auto. eapply Forall_impl; eauto.
Qed.

Lemma emits_for_range P (f : string -> M W (option error)) cmds :
  (forall cmd, emits P (f cmd)) -> emits P (for_range f cmds).
Proof.
  intros Hf. induction cmds as [|cmd rest IH]; simpl.
  - apply emits_ret.
  - apply emits_bind; auto. intros [err|]; auto using emits_ret.
Qed.
End TraceLemmas.

(** Solves [emits P m] for programs built from the primitives. *)
Ltac emits_step :=
  match goal with
  | |- emits _ (bind _ _) => apply emits_bind; [|intro]
  | |- emits _ (ret _) => apply emits_ret
  | |- emits _ (call _ _) => apply emits_call; intros; simpl; auto
  | |- emits _ (act _ _) => apply emits_act; simpl; auto
  | |- emits _ (defer_Close _) => apply emits_defer
  | |- emits _ (for_range _ _) => apply emits_for_range; intro
  | |- emits _ (match ?x with _ => _ end) => destruct x
  | |- emits _ (if ?x then _ else _) => destruct x
  end.

(** ** What each function of the program adds to the trace *)

Section ProgramTraces.
Context {W : Type}.
Variable sys : System W.

Lemma exec_is_phase e : exec_event e -> phase_event e.
Proof. destruct e; simpl; tauto. Qed.

Lemma emits_executeCommand client cmd :
  emits exec_event (executeCommand sys client cmd).
Proof.
  unfold executeCommand, NewSession, CombinedOutput, Session_Close.
  repeat emits_step.
Qed.

Lemma emits_run_or prefix client cmd :
  emits phase_event (run_or sys prefix client cmd).
Proof.
  unfold run_or. apply emits_bind.
  - apply (emits_weaken _ _ _ exec_is_phase), emits_executeCommand.
  - intro. repeat emits_step.
Qed.

Ltac phase_step :=
  match goal with
  | |- emits phase_event (executeCommand _ _ _) =>
      apply (emits_weaken _ _ _ exec_is_phase), emits_executeCommand
  | |- emits phase_event (run_or _ _ _ _) => apply emits_run_or
  | _ => emits_step
  end.

Lemma emits_checkSystemRequirements client :
  emits phase_event (checkSystemRequirements sys client).
Proof. unfold checkSystemRequirements, log_Printf. repeat phase_step. Qed.

Lemma emits_setupKubernetes client config :
  emits phase_event (setupKubernetes sys client config).
Proof. unfold setupKubernetes, Sleep. repeat phase_step. Qed.

Lemma emits_setupMonitoring client config :
  emits phase_event (setupMonitoring sys client config).
Proof. unfold setupMonitoring, WriteFile. repeat phase_step. Qed.

Lemma emits_verifySetup client :
  emits phase_event (verifySetup sys client).
Proof. unfold verifySetup, log_Printf. repeat phase_step. Qed.

Lemma emits_createBackup client :
  emits phase_event (createBackup sys client).
Proof. unfold createBackup. repeat phase_step. Qed.

Lemma emits_keyFileAuth config sshConfig :
  emits (fun e => exists path res, e = EvReadFile path res)
        (keyFileAuth sys config sshConfig).
Proof. unfold keyFileAuth, ReadFile. repeat emits_step; eauto. Qed.

Lemma emits_connectSSH config :
  emits connect_event (connectSSH sys config).
Proof.
  unfold connectSSH, Dial. apply emits_bind.
  - apply (emits_weaken (fun e => exists path res, e = EvReadFile path res)).
    + intros e (path & res & ->). exact I.
    + apply emits_keyFileAuth.
  - intro. repeat emits_step.
Qed.

Lemma emits_saveStatus status :
  emits (write_to (statusFile sys (VMIP status))) (saveStatus sys status).
Proof. unfold saveStatus, WriteFile. repeat emits_step. Qed.
End ProgramTraces.

(** ** The code follows [HostRun] *)

Section HostRunsSound.
Context {W : Type}.
Variable sys : System W.
Variable config : Config.
Variable ip : string.
Variable st : St W.

Lemma main_loop_body_run :
  exists st1,
    HostRun sys config ip st (fst (fst (main_loop_body sys config ip st)))
            (snd (fst (main_loop_body sys config ip st)))
            st1
            (snd (main_loop_body sys config ip st)).
Proof.
  unfold main_loop_body, bind; cbn zeta.
  fold (start_time sys st). fold (start_state sys ip st).
  destruct (connectSSH sys (vmConfig config ip) (start_state sys ip st))
    as [[client|err] st1] eqn:Ec; cbn [fst snd].
  2:{ eexists. eapply RunConnectFailed; eauto. }
  pose proof (ReachConnected sys config ip st client st1 Ec) as R1.
  destruct (checkSystemRequirements sys client (snd (defer_Close client st1)))
    as [[err|] st2] eqn:E1; cbn [fst snd].
  { eexists. eapply RunRequirementsFailed; eauto. }
  pose proof (ReachChecked sys config ip st client _ _ R1 E1) as R2.
  destruct (setupKubernetes sys client config st2) as [[err|] st3] eqn:E2;
    cbn [fst snd].
  { eexists. eapply RunKubernetesFailed; eauto. }
  pose proof (ReachInstalled sys config ip st client _ _ R2 E2) as R3.
  destruct (setupMonitoring sys client config st3) as [[err|] st4] eqn:E3;
    cbn [fst snd].
  { eexists. eapply RunMonitoringFailed; eauto. }
  pose proof (ReachMonitored sys config ip st client _ _ R3 E3) as R4.
  destruct (verifySetup sys client st4) as [[err|] st5] eqn:E4; cbn [fst snd].
  { eexists. eapply RunVerifyFailed; eauto. }
  pose proof (ReachVerified sys config ip st client _ _ R4 E4) as R5.
  destruct (createBackup sys client st5) as [b st6] eqn:E5; cbn [fst snd].
  destruct b as [err|]; cbn [fst snd]; eexists;
    eapply RunEnd; eauto; reflexivity.
Qed.
End HostRunsSound.

(** ** [HostRun] is a function of the start state *)

Section HostRunsUnique.
Context {W : Type}.
Variable sys : System W.
Variable config : Config.
Variable ip : string.
Variable st : St W.

Ltac inv_reaches :=
  repeat match goal with
         | H : Reaches _ _ _ _ _ ?g _ |- _ =>
             first [is_constructor g | fail 1]; inversion H; clear H; subst
         end.

Lemma reaches_inj c c' g st1 st1' :
  Reaches sys config ip st c g st1 ->
  Reaches sys config ip st c' g st1' ->
  c = c' /\ st1 = st1'.
Proof.
  intros R. revert c' st1'.
  induction R as [st1 Ec | st1 st2 R IH E | st1 st2 R IH E
                 | st1 st2 R IH E | st1 st2 R IH E];
    intros c' st1' R'; inversion R'; subst;
    try (match goal with
         | H : Reaches _ _ _ _ _ _ _ |- _ =>
             destruct (IH _ _ H) as [-> ->]
         end);
    split; congruence.
Qed.

Lemma host_run_fun s ex st1 st' s2 ex2 st12 st2' :
  HostRun sys config ip st s ex st1 st' ->
  HostRun sys config ip st s2 ex2 st12 st2' ->
  s = s2 /\ ex = ex2 /\ st1 = st12 /\ st' = st2'.
Proof.
  intros H1 H2.
  destruct H1; destruct H2; inv_reaches; subst;
    repeat match goal with
           | H : connectSSH _ _ _ = _, H' : connectSSH _ _ _ = _ |- _ =>
               rewrite H in H'; inversion H'; clear H'; subst
           | H : ?f ?a = (_, _), H' : ?f ?a = (_, _) |- _ =>
               rewrite H in H'; inversion H'; clear H'; subst
           end;
    try discriminate; repeat split; reflexivity.
Qed.

(** The relation describes exactly what the code does. *)
Lemma main_loop_body_iff s ex st' :
  main_loop_body sys config ip st = ((s, ex), st') <->
  exists st1, HostRun sys config ip st s ex st1 st'.
Proof.
  destruct (main_loop_body_run sys config ip st) as (st1 & R).
  split.
  - intros E. rewrite E in R. eauto.
  - intros (st1' & R').
    destruct (host_run_fun _ _ _ _ _ _ _ _ R R') as (E1 & E2 & _ & E3).
    rewrite <- E1, <- E2, <- E3.
    destruct (main_loop_body sys config ip st) as [[? ?] ?]; reflexivity.
Qed.
End HostRunsUnique.

Section HostRunTraces.
Context {W : Type}.
Variable sys : System W.
Variable config : Config.
Variable ip : string.
Variable st : St W.

Lemma emits_at {A} P (m : M W A) (st0 : St W) a st' :
  emits P m -> m st0 = (a, st') ->
  exists tr, trace st' = (trace st0 ++ tr)%list /\ Forall P tr.
Proof. intros H E. specialize (H st0). rewrite E in H. exact H. Qed.

Lemma connect_is_host e : connect_event e -> host_event e.
Proof. destruct e; simpl; tauto. Qed.

Lemma phase_is_host e : phase_event e -> host_event e.
Proof. destruct e; simpl; tauto. Qed.

Lemma connect_not_exec e : connect_event e -> ~ exec_event e.
Proof. destruct e; simpl; tauto. Qed.

(** The two events that open an iteration. *)
Lemma start_state_trace :
  trace (start_state sys ip st) =
  (trace st ++ [EvNow (start_time sys st);
                EvLoggerPrintf ("Starting setup for VM " ++ ip)])%list.
Proof.
  unfold start_state, start_time, logger_Printf, Now, act, call; simpl.
  rewrite <- app_assoc. reflexivity.
Qed.

Ltac phase_case IH E lem :=
  let tr1 := fresh "tr" in
  let tr2 := fresh "tr" in
  let E1 := fresh "E" in
  let E2 := fresh "E" in
  let F1 := fresh "F" in
  let F2 := fresh "F" in
  destruct IH as (tr1 & E1 & F1);
  destruct (emits_at _ _ _ _ _ lem E) as (tr2 & E2 & F2);
  exists (tr1 ++ tr2)%list; rewrite E2, E1, app_assoc;
  split; [reflexivity|];
  apply Forall_app; split; auto;
  eapply Forall_impl; [apply phase_is_host|]; auto.

Lemma reaches_trace client g st1 :
  Reaches sys config ip st client g st1 ->
  exists tr, trace st1 = (trace st ++ tr)%list /\ Forall host_event tr.
Proof.
  induction 1 as [st1 Ec | st1 st2 R IH E | st1 st2 R IH E
                 | st1 st2 R IH E | st1 st2 R IH E].
  - destruct (emits_at _ _ _ _ _ (emits_connectSSH sys _) Ec) as (tr & E & F).
    simpl. rewrite E, start_state_trace, <- app_assoc.
    eexists; split; [reflexivity|].
    apply Forall_app; split.
    + repeat constructor.
    + eapply Forall_impl; [apply connect_is_host|]; auto.
  - phase_case IH E (emits_checkSystemRequirements sys client).
  - phase_case IH E (emits_setupKubernetes sys client config).
  - phase_case IH E (emits_setupMonitoring sys client config).
  - phase_case IH E (emits_verifySetup sys client).
Qed.

(** The events of one iteration: host events, then those of the one
    [saveStatus] call on the final record, then the closing message of a
    completed run. *)
Lemma host_run_trace s ex st1 st' :
  HostRun sys config ip st s ex st1 st' ->
  exists pre,
    trace st1 = (trace st ++ pre)%list /\
    Forall host_event pre /\
    (forall err, ex = ExitConnect err -> Forall (fun e => ~ exec_event e) pre) /\
    (forall err, ex = ExitEnd (Some err) ->
                 In (EvLoggerPrintf ("Warning: Backup creation failed: " ++ err)) pre) /\
    trace st' =
    (trace st1 ++ events_of (saveStatus sys s) st1 ++ finish ip ex)%list.
Proof.
  assert (SV : forall s0 st0,
             trace (snd (saveStatus sys s0 st0)) =
             (trace st0 ++ events_of (saveStatus sys s0) st0 ++ [])%list).
  { intros s0 st0. rewrite app_nil_r.
    apply (emits_events st0 (emits_saveStatus sys s0)). }
  assert (PH : forall client g st1 (m : M W (option error)) r st2,
             Reaches sys config ip st client g st1 ->
             emits phase_event m -> m st1 = (r, st2) ->
             exists pre, trace st2 = (trace st ++ pre)%list /\
                         Forall host_event pre).
  { intros client g st1' m r st2 R Hm E.
    destruct (reaches_trace _ _ _ R) as (tr1 & E1 & F1).
    destruct (emits_at _ _ _ _ _ Hm E) as (tr2 & E2 & F2).
    exists (tr1 ++ tr2)%list. rewrite E2, E1, app_assoc. split; auto.
    apply Forall_app; split; auto.
    eapply Forall_impl; [apply phase_is_host|]; auto. }
  destruct 1 as [err st1 s Ec Es | client st1 err st2 s R E Es
                | client st1 err st2 s R E Es | client st1 err st2 s R E Es
                | client st1 err st2 s R E Es
                | client st1 b st2 st3 s R E E3 Es].
  - destruct (emits_at _ _ _ _ _ (emits_connectSSH sys _) Ec) as (tr & E & F).
    exists ([EvNow (start_time sys st);
             EvLoggerPrintf ("Starting setup for VM " ++ ip)] ++ tr)%list.
    split; [rewrite E, start_state_trace, <- app_assoc; reflexivity|].
    split; [|split; [|split]].
    + apply Forall_app; split; [repeat constructor|].
      eapply Forall_impl; [apply connect_is_host|]; auto.
    + intros _ _. apply Forall_app; split.
      * repeat constructor; simpl; tauto.
      * eapply Forall_impl; [apply connect_not_exec|]; auto.
    + discriminate.
    + apply SV.
  - destruct (PH _ _ _ _ _ _ R (emits_checkSystemRequirements sys client) E)
      as (pre & Ep & Fp).
    exists pre. repeat split; auto; discriminate.
  - destruct (PH _ _ _ _ _ _ R (emits_setupKubernetes sys client config) E)
      as (pre & Ep & Fp).
    exists pre. repeat split; auto; discriminate.
  - destruct (PH _ _ _ _ _ _ R (emits_setupMonitoring sys client config) E)
      as (pre & Ep & Fp).
    exists pre. repeat split; auto; discriminate.
  - destruct (PH _ _ _ _ _ _ R (emits_verifySetup sys client) E)
      as (pre & Ep & Fp).
    exists pre. repeat split; auto; discriminate.
  - destruct (PH _ _ _ _ _ _ R (emits_createBackup sys client) E)
      as (pre & Ep & Fp).
    subst st3.
    exists (pre ++ match b with
                   | Some err =>
                       [EvLoggerPrintf ("Warning: Backup creation failed: " ++ err)]
                   | None => []
                   end
                ++ [EvNow (fst (Now sys (after_backup b st2)))])%list.
    split; [|split; [|split; [|split]]].
    + destruct b; simpl; rewrite Ep, <- ?app_assoc; reflexivity.
    + apply Forall_app; split; auto.
      destruct b; repeat constructor.
    + discriminate.
    + intros err [= ->]. apply in_or_app. right. left. reflexivity.
    + unfold logger_Printf, act; simpl. rewrite SV, app_nil_r, <- app_assoc.
      reflexivity.
Qed.

(** The same, on the events of the iteration. *)
Lemma main_loop_body_events s ex st1 st' :
  HostRun sys config ip st s ex st1 st' ->
  exists pre,
    events_of (main_loop_body sys config ip) st =
    (pre ++ events_of (saveStatus sys s) st1 ++ finish ip ex)%list /\
    trace st1 = (trace st ++ pre)%list /\
    Forall host_event pre /\
    (forall err, ex = ExitConnect err -> Forall (fun e => ~ exec_event e) pre) /\
    (forall err, ex = ExitEnd (Some err) ->
                 In (EvLoggerPrintf ("Warning: Backup creation failed: " ++ err)) pre).
Proof.
  intros R.
  destruct (host_run_trace _ _ _ _ R) as (pre & E1 & F & NE & WI & E').
  exists pre. repeat split; auto.
  apply events_of_intro.
  destruct (main_loop_body_run sys config ip st) as (st1' & R').
  destruct (host_run_fun _ _ _ _ _ _ _ _ _ _ _ _ R R') as (_ & _ & _ & <-).
  rewrite E', E1, <- app_assoc. reflexivity.
Qed.
End HostRunTraces.


(** * Properties of the orchestrator *)

(** Building a [Reaches] derivation in a scripted world by running the
    code: [script_connect] runs [connectSSH], [script_phase] one phase. *)
Ltac script_connect sys config ip st R :=
  let r := eval vm_compute in (connectSSH sys (vmConfig config ip)
                                          (start_state sys ip st)) in
  lazymatch r with
  | (Ok ?c, ?st1) =>
      let E := fresh "E" in
      assert (E : connectSSH sys (vmConfig config ip) (start_state sys ip st)
                  = (Ok c, st1)) by (vm_compute; reflexivity);
      pose proof (ReachConnected sys config ip st c st1 E) as R;
      clear E
  end.

Ltac script_phase R0 ctor m R :=
  lazymatch type of R0 with
  | Reaches ?sys ?config ?ip ?st ?c _ ?st1 =>
      let r := eval vm_compute in (m st1) in
      lazymatch r with
      | (None, ?st2) =>
          let E := fresh "E" in
          assert (E : m st1 = (None, st2)) by (vm_compute; reflexivity);
          pose proof (ctor _ sys config ip st c st1 st2 R0 E) as R;
          clear E
      end
  end.

(** A phase call in a scripted world, with its computed result. *)
Ltac script_call m st1 E :=
  let r := eval vm_compute in (m st1) in
  assert (E : m st1 = r) by (vm_compute; reflexivity).

(** ** Completed steps *)

(** C1 (as amended).  When the connection and all five phases succeed, the
    final record's [CompletedSteps] is [kubernetes; monitoring;
    verification; backup], in that order: the requirement check is not
    recorded.  When the requirement check succeeds and [setupKubernetes]
    fails, [CompletedSteps] is empty. *)
Theorem C1_completed_steps :
  forall W (sys : System W) config ip st s ex st',
    main_loop_body sys config ip st = ((s, ex), st') ->
    (forall client st1 st2,
        Reaches sys config ip st client Verified st1 ->
        createBackup sys client st1 = (None, st2) ->
        CompletedSteps s = ["kubernetes"; "monitoring"; "verification"; "backup"]) /\
    (forall client st1 err st2,
        Reaches sys config ip st client Checked st1 ->
        setupKubernetes sys client config st1 = (Some err, st2) ->
        CompletedSteps s = []).
Proof.
  intros W sys config ip st s ex st' E.
  apply main_loop_body_iff in E. destruct E as (sv & R).
  split.
  - intros client st1 st2 RV EB.
    assert (R2 : HostRun sys config ip st
                   (completed sys ip st None (after_backup None st2))
                   (ExitEnd None) (snd (Now sys (after_backup None st2)))
                   (snd (logger_Printf ("Setup completed successfully for VM " ++ ip)
                           (snd (saveStatus sys
                                   (completed sys ip st None (after_backup None st2))
                                   (snd (Now sys (after_backup None st2))))))))
      by (eapply RunEnd; eauto).
    destruct (host_run_fun _ _ _ _ _ _ _ _ _ _ _ _ R R2) as (-> & _).
    reflexivity.
  - intros client st1 err st2 RC EK.
    assert (R2 : HostRun sys config ip st
                   (failed sys ip st "Setting up Kubernetes"
                           ("Kubernetes setup failed: " ++ err) [])
                   (ExitKubernetes err) st2
                   (snd (saveStatus sys
                           (failed sys ip st "Setting up Kubernetes"
                                   ("Kubernetes setup failed: " ++ err) [])
                           st2)))
      by (eapply RunKubernetesFailed; eauto).
    destruct (host_run_fun _ _ _ _ _ _ _ _ _ _ _ _ R R2) as (-> & _).
    reflexivity.
Qed.

(** A run in which every phase succeeds. *)
Lemma C1_completed_steps_witness :
  (exists st1 st2,
      Reaches Script.ok Script.config "h1" Script.st0 2 Verified st1 /\
      createBackup Script.ok 2 st1 = (None, st2)) /\
  CompletedSteps (fst (fst (main_loop_body Script.ok Script.config "h1" Script.st0)))
  = ["kubernetes"; "monitoring"; "verification"; "backup"].
Proof.
  script_connect Script.ok Script.config "h1" Script.st0 R0.
  script_phase R0 (@ReachChecked) (checkSystemRequirements Script.ok 2) R1.
  script_phase R1 (@ReachInstalled) (setupKubernetes Script.ok 2 Script.config) R2.
  script_phase R2 (@ReachMonitored) (setupMonitoring Script.ok 2 Script.config) R3.
  script_phase R3 (@ReachVerified) (verifySetup Script.ok 2) R4.
  lazymatch type of R4 with
  | Reaches _ _ _ _ _ _ ?st1 => script_call (createBackup Script.ok 2) st1 B
  end.
  split; [eauto|].
  refine (proj1 (C1_completed_steps nat Script.ok Script.config "h1" Script.st0
                   (fst (fst (main_loop_body Script.ok Script.config "h1" Script.st0)))
                   (snd (fst (main_loop_body Script.ok Script.config "h1" Script.st0)))
                   (snd (main_loop_body Script.ok Script.config "h1" Script.st0))
                   _) 2 _ _ R4 B).
  vm_compute; reflexivity.
Defined.

(** C1 as stated fails: after five successful phases the record lists four
    steps, and after a failure of [setupKubernetes] it lists none. *)
Lemma C1_counterexample :
  let ok := fst (main_loop_body Script.ok Script.config "h1" Script.st0) in
  let bad := fst (main_loop_body (Script.sys [] [Script.docker_key] false)
                    Script.config "h1" Script.st0) in
  snd ok = ExitEnd None /\
  ~ (exists n1 n2 n3 n4 n5, CompletedSteps (fst ok) = [n1; n2; n3; n4; n5]) /\
  (exists err, snd bad = ExitKubernetes err) /\
  ~ (exists n1, CompletedSteps (fst bad) = [n1]).
Proof.
  vm_compute. repeat split.
  - intros (n1 & n2 & n3 & n4 & n5 & H). discriminate H.
  - eexists; reflexivity.
  - intros (n1 & H). discriminate H.
Qed.

(** ** Failed records *)

(** C2 (as amended).  Whenever a host's run ends with [Status = "Failed"],
    the record has a non-empty [Error] when it is saved, which is the last
    action of the run; its [EndTime] is still the zero value: only the
    completion path sets it. *)
Theorem C2_failed_has_error_and_zero_end_time :
  forall W (sys : System W) config ip st s ex st',
    main_loop_body sys config ip st = ((s, ex), st') ->
    Status s = "Failed" ->
    Error s <> EmptyString /\
    EndTime s = TimeZero /\
    exists pre st1,
      trace st1 = (trace st ++ pre)%list /\
      st' = snd (saveStatus sys s st1).
Proof.
  intros W sys config ip st s ex st' E F.
  apply main_loop_body_iff in E. destruct E as (st1 & R).
  destruct (host_run_trace _ _ _ _ _ _ _ _ R) as (pre & E1 & _).
  destruct R; subst; simpl in F |- *; try discriminate F;
    (split; [discriminate | split; [reflexivity | eauto]]).
Qed.

(** A refused connection. *)
Lemma C2_failed_has_error_and_zero_end_time_witness :
  let r := main_loop_body Script.refused Script.config "h1" Script.st0 in
  Status (fst (fst r)) = "Failed" /\
  Error (fst (fst r)) <> EmptyString /\
  EndTime (fst (fst r)) = TimeZero /\
  exists pre st1,
    trace st1 = (trace Script.st0 ++ pre)%list /\
    snd r = snd (saveStatus Script.refused (fst (fst r)) st1).
Proof.
  split; [vm_compute; reflexivity|].
  apply (C2_failed_has_error_and_zero_end_time nat Script.refused Script.config
           "h1" Script.st0 _ (snd (fst (main_loop_body Script.refused Script.config
                                          "h1" Script.st0)))).
  - vm_compute; reflexivity.
  - vm_compute; reflexivity.
Defined.

(** C2 as stated fails: the record of a refused connection is "Failed" and
    its [EndTime] is not set. *)
Lemma C2_counterexample :
  let s := fst (fst (main_loop_body Script.refused Script.config "h1" Script.st0)) in
  Status s = "Failed" /\
  ~ (Error s <> EmptyString /\ EndTime s <> TimeZero).
Proof.
  vm_compute. split; [reflexivity|].
  intros [_ H]. apply H. reflexivity.
Qed.

(** ** What [saveStatus] writes *)

Lemma saveStatus_events {W} (sys : System W) s data st :
  json_MarshalIndent sys s = Ok data ->
  events_of (saveStatus sys s) st =
  [EvWriteFile (statusFile sys (VMIP s)) data 420 (fst (saveStatus sys s st))].
Proof.
  intros E. apply events_of_intro. unfold saveStatus. rewrite E. reflexivity.
Qed.

Lemma saveStatus_not_console {W} (sys : System W) s st :
  Forall (fun e => ~ console_event e) (events_of (saveStatus sys s) st).
Proof.
  destruct (emits_events st (emits_saveStatus sys s)) as [_ F].
  eapply Forall_impl; [|exact F]. intros [] H; simpl in *; tauto.
Qed.

Lemma saveStatus_not_exec {W} (sys : System W) s st :
  Forall (fun e => ~ exec_event e) (events_of (saveStatus sys s) st).
Proof.
  destruct (emits_events st (emits_saveStatus sys s)) as [_ F].
  eapply Forall_impl; [|exact F]. intros [] H; simpl in *; tauto.
Qed.

(** ** Connection failure *)

(** C7.  When [connectSSH] fails for a host, the record of that host is
    "Failed" with no completed step, an [Error] that carries the text of the
    connection error, and [CurrentStep] still "Initializing"; the run
    executes no remote command; it ends by saving that record (the write of
    its serialisation is the last event); and the loop goes on with the
    next host. *)
Theorem C7_connection_failure :
  forall W (sys : System W) config ip st s ex st' err st1,
    main_loop_body sys config ip st = ((s, ex), st') ->
    connectSSH sys (vmConfig config ip) (start_state sys ip st) = (Err err, st1) ->
    Status s = "Failed" /\
    CompletedSteps s = [] /\
    Error s = "SSH connection failed: " ++ err /\
    CurrentStep s = "Initializing" /\
    Forall (fun e => ~ exec_event e) (events_of (main_loop_body sys config ip) st) /\
    st' = snd (saveStatus sys s st1) /\
    (forall data, json_MarshalIndent sys s = Ok data ->
       exists pre res,
         events_of (main_loop_body sys config ip) st =
         (pre ++ [EvWriteFile (statusFile sys ip) data 420 res])%list) /\
    (forall rest,
        main_loop sys config (ip :: rest) st = main_loop sys config rest st').
Proof.
  intros W sys config ip st s ex st' err st1 E Ec.
  assert (R : HostRun sys config ip st
                (failed sys ip st "Initializing" ("SSH connection failed: " ++ err) [])
                (ExitConnect err) st1
                (snd (saveStatus sys
                        (failed sys ip st "Initializing"
                                ("SSH connection failed: " ++ err) [])
                        st1)))
    by (eapply RunConnectFailed; eauto).
  pose proof (proj2 (main_loop_body_iff sys config ip st _ _ _) (ex_intro _ _ R)) as E'.
  rewrite E in E'. injection E' as -> -> ->.
  destruct (main_loop_body_events _ _ _ _ _ _ _ _ R) as (pre & Ev & _ & _ & NE & _).
  repeat split; try reflexivity.
  - rewrite Ev. apply Forall_app; split; [eapply NE; reflexivity|].
    apply Forall_app; split; [apply saveStatus_not_exec | constructor].
  - intros data M.
    pose proof (saveStatus_events sys _ data st1 M) as SE.
    exists pre. eexists. rewrite Ev. cbn [finish]. rewrite app_nil_r.
    f_equal. exact SE.
  - intros rest. simpl. unfold bind; cbn zeta. rewrite E. reflexivity.
Qed.

(** A refused connection: the record, and the next host is still served. *)
Lemma C7_connection_failure_witness :
  let r := main_loop_body Script.refused Script.config "h1" Script.st0 in
  (exists err st1,
      connectSSH Script.refused (vmConfig Script.config "h1")
                 (start_state Script.refused "h1" Script.st0) = (Err err, st1)) /\
  Status (fst (fst r)) = "Failed" /\
  CurrentStep (fst (fst r)) = "Initializing" /\
  main_loop Script.refused Script.config ["h1"; "h2"] Script.st0
  = main_loop Script.refused Script.config ["h2"] (snd r).
Proof.
  script_call (connectSSH Script.refused (vmConfig Script.config "h1"))
              (start_state Script.refused "h1" Script.st0) Ec.
  split; [eauto|].
  pose proof (C7_connection_failure nat Script.refused Script.config "h1" Script.st0
                (fst (fst (main_loop_body Script.refused Script.config "h1" Script.st0)))
                (snd (fst (main_loop_body Script.refused Script.config "h1" Script.st0)))
                (snd (main_loop_body Script.refused Script.config "h1" Script.st0))
                _ _ ltac:(vm_compute; reflexivity) Ec) as H.
  repeat split; apply H.
Defined.

(** ** Failure of the requirement check *)

(** C10.  When the connection succeeds and [checkSystemRequirements] fails,
    the record that is saved differs from the initial record (lines 97-102)
    only in [Status] and [Error]: [CurrentStep] is still "Initializing",
    since the requirement check sets no step marker of its own. *)
Theorem C10_requirements_failure_keeps_initializing :
  forall W (sys : System W) config ip st s ex st' client st1 err st2,
    main_loop_body sys config ip st = ((s, ex), st') ->
    Reaches sys config ip st client Connected st1 ->
    checkSystemRequirements sys client st1 = (Some err, st2) ->
    let initial :=
      mkSetupStatus ip (start_time sys st) TimeZero "Initializing" "In Progress"
                    EmptyString [] in
    s = set_Error (set_Status initial "Failed")
                  ("System requirements check failed: " ++ err) /\
    CurrentStep s = "Initializing" /\
    st' = snd (saveStatus sys s st2) /\
    (forall data, json_MarshalIndent sys s = Ok data ->
       exists pre res,
         events_of (main_loop_body sys config ip) st =
         (pre ++ [EvWriteFile (statusFile sys ip) data 420 res])%list).
Proof.
  intros W sys config ip st s ex st' client st1 err st2 E RC EC initial.
  assert (R : HostRun sys config ip st
                (failed sys ip st "Initializing"
                        ("System requirements check failed: " ++ err) [])
                (ExitRequirements err) st2
                (snd (saveStatus sys
                        (failed sys ip st "Initializing"
                                ("System requirements check failed: " ++ err) [])
                        st2)))
    by (eapply RunRequirementsFailed; eauto).
  pose proof (proj2 (main_loop_body_iff sys config ip st _ _ _) (ex_intro _ _ R)) as E'.
  rewrite E in E'. injection E' as -> -> ->.
  destruct (main_loop_body_events _ _ _ _ _ _ _ _ R) as (pre & Ev & _).
  repeat split; try reflexivity.
  intros data M.
  pose proof (saveStatus_events sys _ data st2 M) as SE.
  exists pre. eexists. rewrite Ev. cbn [finish]. rewrite app_nil_r.
  f_equal. exact SE.
Qed.

(** The host is reached and its first check command fails. *)
Lemma C10_requirements_failure_keeps_initializing_witness :
  let sys := Script.sys [] ["uname -a"] false in
  let r := main_loop_body sys Script.config "h1" Script.st0 in
  (exists st1 err st2,
      Reaches sys Script.config "h1" Script.st0 2 Connected st1 /\
      checkSystemRequirements sys 2 st1 = (Some err, st2)) /\
  CurrentStep (fst (fst r)) = "Initializing" /\
  Status (fst (fst r)) = "Failed".
Proof.
  intros sys r.
  script_connect (Script.sys [] ["uname -a"] false) Script.config "h1" Script.st0 R0.
  lazymatch type of R0 with
  | Reaches _ _ _ _ _ _ ?st1 =>
      script_call (checkSystemRequirements (Script.sys [] ["uname -a"] false) 2) st1 EC
  end.
  split; [eauto|].
  pose proof (C10_requirements_failure_keeps_initializing
                nat (Script.sys [] ["uname -a"] false) Script.config "h1" Script.st0
                (fst (fst r)) (snd (fst r)) (snd r) 2 _ _ _
                ltac:(vm_compute; reflexivity) R0 EC) as H.
  split; [apply H|].
  destruct H as (-> & _). reflexivity.
Defined.

(** ** Terminal state *)

(** C6.  A host's final record is "Completed" exactly when the connection
    and the four phases up to verification succeeded, and it is "Failed"
    otherwise.  What [createBackup] returns does not matter: the record is
    "Completed" with an empty [Error]; when it fails, "backup" is left out
    of [CompletedSteps] and a warning is printed. *)
Theorem C6_completed_iff_verified :
  forall W (sys : System W) config ip st s ex st',
    main_loop_body sys config ip st = ((s, ex), st') ->
    (Status s = "Completed" <->
     exists client st1, Reaches sys config ip st client Verified st1) /\
    (Status s = "Completed" \/ Status s = "Failed") /\
    (forall client st1 b st2,
        Reaches sys config ip st client Verified st1 ->
        createBackup sys client st1 = (b, st2) ->
        Status s = "Completed" /\
        Error s = EmptyString /\
        match b with
        | None =>
            CompletedSteps s = ["kubernetes"; "monitoring"; "verification"; "backup"]
        | Some err =>
            CompletedSteps s = ["kubernetes"; "monitoring"; "verification"] /\
            In (EvLoggerPrintf ("Warning: Backup creation failed: " ++ err))
               (events_of (main_loop_body sys config ip) st)
        end).
Proof.
  intros W sys config ip st s ex st' E.
  assert (B : forall client st1 b st2,
             Reaches sys config ip st client Verified st1 ->
             createBackup sys client st1 = (b, st2) ->
             exists st3 st4,
               HostRun sys config ip st s ex st3 st4 /\
               s = completed sys ip st b (after_backup b st2) /\ ex = ExitEnd b).
  { intros client st1 b st2 RV EB.
    assert (R : HostRun sys config ip st
                  (completed sys ip st b (after_backup b st2))
                  (ExitEnd b) (snd (Now sys (after_backup b st2)))
                  (snd (logger_Printf ("Setup completed successfully for VM " ++ ip)
                          (snd (saveStatus sys
                                  (completed sys ip st b (after_backup b st2))
                                  (snd (Now sys (after_backup b st2))))))))
      by (eapply RunEnd; eauto).
    pose proof (proj2 (main_loop_body_iff sys config ip st _ _ _) (ex_intro _ _ R))
      as E'.
    rewrite E in E'. injection E' as -> -> ->. eauto. }
  split; [|split].
  - split.
    + intros C. apply main_loop_body_iff in E. destruct E as (sv & R).
      destruct R; subst; simpl in C; try discriminate C; eauto.
    + intros (client & st1 & RV).
      destruct (createBackup sys client st1) as [b st2] eqn:EB.
      destruct (B _ _ _ _ RV EB) as (_ & _ & _ & -> & _). reflexivity.
  - apply main_loop_body_iff in E. destruct E as (sv & R).
    destruct R; subst; simpl; auto.
  - intros client st1 b st2 RV EB.
    destruct (B _ _ _ _ RV EB) as (st3 & st4 & R & -> & ->).
    split; [reflexivity|]. split; [reflexivity|].
    destruct b as [err|]; [|reflexivity].
    split; [reflexivity|].
    destruct (main_loop_body_events _ _ _ _ _ _ _ _ R) as (pre & Ev & _ & _ & _ & WI).
    rewrite Ev. apply in_or_app. left. apply WI. reflexivity.
Qed.

(** Every phase succeeds except the backup, whose first command fails. *)
Lemma C6_completed_iff_verified_witness :
  let sys := Script.sys [] ["mkdir -p /root/k8s-backup"] false in
  let r := main_loop_body sys Script.config "h1" Script.st0 in
  (exists st1 err st2,
      Reaches sys Script.config "h1" Script.st0 2 Verified st1 /\
      createBackup sys 2 st1 = (Some err, st2)) /\
  Status (fst (fst r)) = "Completed" /\
  Error (fst (fst r)) = EmptyString /\
  CompletedSteps (fst (fst r)) = ["kubernetes"; "monitoring"; "verification"].
Proof.
  intros sys r.
  script_connect (Script.sys [] ["mkdir -p /root/k8s-backup"] false)
                 Script.config "h1" Script.st0 R0.
  script_phase R0 (@ReachChecked) (checkSystemRequirements sys 2) R1.
  script_phase R1 (@ReachInstalled) (setupKubernetes sys 2 Script.config) R2.
  script_phase R2 (@ReachMonitored) (setupMonitoring sys 2 Script.config) R3.
  script_phase R3 (@ReachVerified) (verifySetup sys 2) R4.
  lazymatch type of R4 with
  | Reaches _ _ _ _ _ _ ?st1 => script_call (createBackup sys 2) st1 EB
  end.
  split; [eauto|].
  pose proof (proj2 (proj2 (C6_completed_iff_verified
                              nat (Script.sys [] ["mkdir -p /root/k8s-backup"] false)
                              Script.config "h1" Script.st0
                              (fst (fst r)) (snd (fst r)) (snd r)
                              ltac:(vm_compute; reflexivity)))
                    2 _ _ _ R4 EB) as H.
  cbv beta iota in H. repeat split; apply H.
Defined.

(** ** When the record is saved *)

Lemma split_after {A} (P : A -> Prop) (pre rest l1 : list A) e l2 :
  (pre ++ rest = l1 ++ e :: l2)%list ->
  Forall (fun x => ~ P x) pre -> P e ->
  exists l, rest = (l ++ e :: l2)%list.
Proof.
  revert l1. induction pre as [|x pre IH]; intros l1 E F Pe.
  - exists l1. exact E.
  - destruct l1 as [|y l1]; simpl in E; injection E as -> E.
    + exfalso. apply (Forall_inv F). exact Pe.
    + apply (IH l1 E); auto. apply (Forall_inv_tail F).
Qed.

Lemma host_event_not_status_write path e :
  path <> "prometheus-values.yaml" -> host_event e -> ~ write_to path e.
Proof.
  intros N H Wr. destruct e; simpl in *; try tauto.
  destruct H as [[]|H]; congruence.
Qed.

(** C3 (as amended).  The record is not saved when a phase succeeds.  In
    every host run the status file is written by one [saveStatus] call only,
    made on the final record when the run ends (at a fatal failure or after
    the backup): every event before it is something else than a write to the
    status file, only the closing message can follow it, and no remote
    command runs after a write to the status file.  The status file must not
    be the values file that [setupMonitoring] writes, which holds for every
    path [filepath.Join] builds from [ip + ".json"]. *)
Theorem C3_status_saved_only_when_run_ends :
  forall W (sys : System W) config ip st s ex st',
    main_loop_body sys config ip st = ((s, ex), st') ->
    statusFile sys ip <> "prometheus-values.yaml" ->
    (exists pre st1,
        events_of (main_loop_body sys config ip) st =
        (pre ++ events_of (saveStatus sys s) st1 ++ finish ip ex)%list /\
        Forall (fun e => ~ write_to (statusFile sys ip) e) pre) /\
    (forall l1 e l2,
        events_of (main_loop_body sys config ip) st = (l1 ++ e :: l2)%list ->
        write_to (statusFile sys ip) e ->
        Forall (fun e' => ~ exec_event e') l2).
Proof.
  intros W sys config ip st s ex st' E N.
  apply main_loop_body_iff in E. destruct E as (st1 & R).
  destruct (main_loop_body_events _ _ _ _ _ _ _ _ R) as (pre & Ev & _ & HE & _).
  assert (NW : Forall (fun e => ~ write_to (statusFile sys ip) e) pre).
  { eapply Forall_impl; [|exact HE].
    intros e. apply host_event_not_status_write. exact N. }
  split.
  - exists pre, st1. auto.
  - intros l1 e l2 Sp Wr. rewrite Ev in Sp.
    destruct (split_after (write_to (statusFile sys ip)) _ _ _ _ _ Sp NW Wr)
      as (l & El).
    assert (NE : Forall (fun e' => ~ exec_event e')
                        (events_of (saveStatus sys s) st1 ++ finish ip ex)).
    { apply Forall_app; split; [apply saveStatus_not_exec|].
      destruct ex; repeat constructor; simpl; tauto. }
    rewrite El in NE. apply Forall_app in NE. destruct NE as [_ NE].
    apply (Forall_inv_tail NE).
Qed.

(** A run in which every phase succeeds. *)
Lemma C3_status_saved_only_when_run_ends_witness :
  let r := main_loop_body Script.ok Script.config "h1" Script.st0 in
  statusFile Script.ok "h1" <> "prometheus-values.yaml" /\
  exists pre st1,
    events_of (main_loop_body Script.ok Script.config "h1") Script.st0 =
    (pre ++ events_of (saveStatus Script.ok (fst (fst r))) st1
         ++ finish "h1" (snd (fst r)))%list /\
    Forall (fun e => ~ write_to (statusFile Script.ok "h1") e) pre.
Proof.
  intros r.
  assert (N : statusFile Script.ok "h1" <> "prometheus-values.yaml")
    by (vm_compute; discriminate).
  split; [exact N|].
  apply (C3_status_saved_only_when_run_ends nat Script.ok Script.config "h1"
           Script.st0 (fst (fst r)) (snd (fst r)) (snd r)).
  - vm_compute; reflexivity.
  - exact N.
Defined.

(** C3 as stated fails: in a run where every phase succeeds, nothing is
    written to the status file between the last command of
    [setupKubernetes] and the first command of [setupMonitoring]. *)
Lemma C3_counterexample :
  snd (fst (main_loop_body Script.ok Script.config "h1" Script.st0)) = ExitEnd None /\
  ~ (forall pre mid post s1 r1 s2 r2,
        events_of (main_loop_body Script.ok Script.config "h1") Script.st0 =
        (pre ++ EvCombinedOutput s1
                  "kubectl apply -f https://docs.projectcalico.org/manifests/calico.yaml"
                  r1
             :: mid ++ EvCombinedOutput s2 "kubectl create namespace monitoring" r2
             :: post)%list ->
        exists data perm res,
          In (EvWriteFile (statusFile Script.ok "h1") data perm res) mid).
Proof.
  split; [vm_compute; reflexivity|].
  intros H.
  specialize (H (firstn 80 (events_of (main_loop_body Script.ok Script.config "h1")
                              Script.st0))
                [EvSessionClose 22; EvSleep 2000000000; EvNewSession 2 (Ok 23)]
                (skipn 85 (events_of (main_loop_body Script.ok Script.config "h1")
                             Script.st0))
                22 ("ok", None) 23 ("ok", None)).
  destruct H as (data & perm & res & I).
  - vm_compute; reflexivity.
  - simpl in I. destruct I as [I|[I|[I|[]]]]; discriminate I.
Qed.

(** ** A failing save *)

(** C5 (as amended).  When the [saveStatus] call of a host run fails, [main]
    drops the error it returns: the call prints nothing, the record the
    iteration holds is the one that was passed to it, only the closing
    message of a completed run follows, and the loop goes on with the next
    host, as after a successful save. *)
Theorem C5_save_error_is_dropped :
  forall W (sys : System W) config ip st s ex st1 st' err,
    HostRun sys config ip st s ex st1 st' ->
    fst (saveStatus sys s st1) = Some err ->
    main_loop_body sys config ip st = ((s, ex), st') /\
    Forall (fun e => ~ console_event e) (events_of (saveStatus sys s) st1) /\
    trace st' = (trace (snd (saveStatus sys s st1)) ++ finish ip ex)%list /\
    (forall rest,
        main_loop sys config (ip :: rest) st = main_loop sys config rest st').
Proof.
  intros W sys config ip st s ex st1 st' err R F.
  assert (E : main_loop_body sys config ip st = ((s, ex), st'))
    by (apply main_loop_body_iff; eauto).
  split; [exact E|]. split; [apply saveStatus_not_console|]. split.
  - destruct (host_run_trace _ _ _ _ _ _ _ _ R) as (pre & _ & _ & _ & _ & E').
    destruct (emits_events st1 (emits_saveStatus sys s)) as [Es _].
    rewrite E', Es, app_assoc. reflexivity.
  - intros rest. simpl. unfold bind; cbn zeta. rewrite E. reflexivity.
Qed.

(** The connection is refused and the disk is full. *)
Lemma C5_save_error_is_dropped_witness :
  let sys := Script.sys ["h1:22"] [] true in
  exists s ex st1 st' err,
    HostRun sys Script.config "h1" Script.st0 s ex st1 st' /\
    fst (saveStatus sys s st1) = Some err /\
    main_loop_body sys Script.config "h1" Script.st0 = ((s, ex), st') /\
    Forall (fun e => ~ console_event e) (events_of (saveStatus sys s) st1).
Proof.
  intros sys.
  script_call (connectSSH sys (vmConfig Script.config "h1"))
              (start_state sys "h1" Script.st0) Ec.
  pose proof (RunConnectFailed sys Script.config "h1" Script.st0 _ _ _ Ec eq_refl)
    as R.
  lazymatch type of R with
  | HostRun _ _ _ _ ?s _ ?st1 _ =>
      script_call (fun st => fst (saveStatus sys s st)) st1 F
  end.
  cbv beta in F.
  pose proof (C5_save_error_is_dropped nat sys Script.config "h1" Script.st0
                _ _ _ _ _ R F) as H.
  do 5 eexists. split; [exact R|]. split; [exact F|]. split; apply H.
Defined.

(** C5 as stated fails: the connection to the only host is refused and the
    save of its record fails; the only thing printed in the whole run of the
    program is the start message, and the exit status is 0. *)
Lemma C5_counterexample :
  let r := main (Script.sys ["h1:22"] [] true) ["k8s-setup"; "config.json"; "h1"]
                Script.st0 in
  In (EvWriteFile "status/h1.json" "h1:Failed" 420
        (Some "write status/h1.json: no space left on device"))
     (trace (snd r)) /\
  filter is_console (trace (snd r)) = [EvLoggerPrintf "Starting setup for VM h1"] /\
  fst r = 0%Z.
Proof.
  vm_compute. repeat split. auto 10.
Qed.

(** ** Authentication *)

(** C9.  In [connectSSH], and in [Connect] of package ssh alike: with an
    empty [KeyFile] the only thing done is one dial, with the password as
    the only authentication method; with a non-empty [KeyFile] the file is
    read first, and if reading or parsing fails the function returns the
    error without dialling; otherwise the one dial that follows has the
    public-key method, built from the parsed key, as its only
    authentication method. *)
Theorem C9_key_file_replaces_password :
  forall W (sys : System W) (connect : VMConfig -> M W (Result Client)) config st,
    In connect [connectSSH sys; ssh_Connect sys] ->
    let addr := IP config ++ ":22" in
    let conf auth :=
      mkClientConfig (Username config) auth ssh_InsecureIgnoreHostKey
                     (Timeout config) in
    (KeyFile config = EmptyString ->
     exists res,
       events_of (connect config) st =
       [EvDial "tcp" addr (conf [ssh_Password (Password config)]) res]) /\
    (KeyFile config <> EmptyString ->
     match fst (ioutil_ReadFile sys (KeyFile config) (world st)) with
     | Err e =>
         fst (connect config st) = Err ("failed to read key file: " ++ e) /\
         events_of (connect config) st = [EvReadFile (KeyFile config) (Err e)]
     | Ok key =>
         match ssh_ParsePrivateKey sys key with
         | Err e =>
             fst (connect config st) = Err ("failed to parse private key: " ++ e) /\
             events_of (connect config) st = [EvReadFile (KeyFile config) (Ok key)]
         | Ok signer =>
             exists res,
               events_of (connect config) st =
               [EvReadFile (KeyFile config) (Ok key);
                EvDial "tcp" addr (conf [ssh_PublicKeys signer]) res]
         end
     end).
Proof.
  intros W sys connect config st HIn addr conf.
  assert (C : connect = connectSSH sys \/ connect = ssh_Connect sys)
    by (destruct HIn as [<-|[<-|[]]]; auto).
  clear HIn. split.
  - intros HK.
    exists (fst (ssh_Dial sys "tcp" addr (conf [ssh_Password (Password config)])
                          (world st))).
    apply events_of_intro.
    destruct C as [-> | ->]; unfold connectSSH, ssh_Connect, keyFileAuth;
      rewrite HK; cbn [String.eqb negb]; unfold bind, ret, Dial, call;
      cbn [fst snd trace]; subst addr conf; cbv beta;
      try destruct (fst (ssh_Dial sys _ _ _ _)); reflexivity.
  - intros HK.
    assert (NE : negb (KeyFile config =? EmptyString)%string = true)
      by (destruct (String.eqb_spec (KeyFile config) EmptyString);
          [contradiction | reflexivity]).
    destruct (ioutil_ReadFile sys (KeyFile config) (world st)) as [[key|e] w] eqn:ER;
      cbn [fst]; [destruct (ssh_ParsePrivateKey sys key) as [signer|e] eqn:EP|].
    + exists (fst (ssh_Dial sys "tcp" addr (conf [ssh_PublicKeys signer]) w)).
      apply events_of_intro.
      destruct C as [-> | ->]; unfold connectSSH, ssh_Connect, keyFileAuth;
        rewrite NE; unfold bind, ret, Dial, ReadFile, call;
        cbn [fst snd world trace]; rewrite ER; cbn [fst snd world trace];
        rewrite EP; cbn [fst snd world trace User HostKeyCallback_ Timeout_];
        subst addr conf; cbv beta;
        try destruct (fst (ssh_Dial sys _ _ _ _));
        cbn [fst snd trace]; rewrite <- app_assoc; reflexivity.
    + destruct C as [-> | ->]; unfold connectSSH, ssh_Connect, keyFileAuth;
        (split; [|apply events_of_intro]);
        rewrite NE; unfold bind, ret, ReadFile, call;
        cbn [fst snd world trace]; rewrite ER; cbn [fst snd world trace];
        rewrite EP; reflexivity.
    + destruct C as [-> | ->]; unfold connectSSH, ssh_Connect, keyFileAuth;
        (split; [|apply events_of_intro]);
        rewrite NE; unfold bind, ret, ReadFile, call;
        cbn [fst snd world trace]; rewrite ER; reflexivity.
Qed.

(** With the password only, and with a key file that cannot be read. *)
Lemma C9_key_file_replaces_password_witness :
  In (connectSSH Script.ok) [connectSSH Script.ok; ssh_Connect Script.ok] /\
  (exists res,
      events_of (connectSSH Script.ok (mkVMConfig "h1" "root" "secret" EmptyString 30))
                Script.st0
      = [EvDial "tcp" "h1:22"
           (mkClientConfig "root" [ssh_Password "secret"] ssh_InsecureIgnoreHostKey 30)
           res]) /\
  events_of (connectSSH Script.ok (mkVMConfig "h1" "root" "secret" "id_rsa" 30))
            Script.st0
  = [EvReadFile "id_rsa" (Err "open id_rsa: no such file or directory")].
Proof.
  assert (I : In (connectSSH Script.ok) [connectSSH Script.ok; ssh_Connect Script.ok])
    by (left; reflexivity).
  split; [exact I|]. split.
  - apply (proj1 (C9_key_file_replaces_password
                    nat Script.ok (connectSSH Script.ok)
                    (mkVMConfig "h1" "root" "secret" EmptyString 30) Script.st0 I)).
    reflexivity.
  - apply (proj2 (C9_key_file_replaces_password
                    nat Script.ok (connectSSH Script.ok)
                    (mkVMConfig "h1" "root" "secret" "id_rsa" 30) Script.st0 I)).
    simpl. discriminate.
Defined.

(** ** Command line *)

(** C4 (the code at the failing input).  With a configuration path and no
    host address, once the configuration is loaded and the status directory
    exists, [main] returns with exit status 0 having done nothing else: no
    usage message is printed. *)
Theorem C4_no_host_address_exits_zero :
  forall W (sys : System W) prog configPath st config,
    defers st = [] ->
    fst (loadConfig sys configPath st) = Ok config ->
    fst (MkdirAll sys "status" 493 (snd (loadConfig sys configPath st))) = None ->
    fst (main sys [prog; configPath] st) = 0%Z /\
    events_of (main sys [prog; configPath]) st =
    [EvReadFile configPath (fst (ioutil_ReadFile sys configPath (world st)));
     EvMkdirAll "status" 493 None].
Proof.
  intros W sys prog configPath st config D EL EM.
  assert (T : trace (snd (loadConfig sys configPath st)) =
              (trace st ++ [EvReadFile configPath
                              (fst (ioutil_ReadFile sys configPath (world st)))])%list).
  { unfold loadConfig, bind, ReadFile, call; cbn zeta; cbn [fst snd].
    destruct (fst (ioutil_ReadFile sys configPath (world st))) as [data|e];
      [destruct (json_Unmarshal sys data)|]; reflexivity. }
  assert (D' : defers (snd (loadConfig sys configPath st)) = []).
  { unfold loadConfig, bind, ReadFile, call; cbn zeta; cbn [fst snd].
    destruct (fst (ioutil_ReadFile sys configPath (world st))) as [data|e];
      [destruct (json_Unmarshal sys data)|]; exact D. }
  unfold events_of, main. cbn [length Nat.ltb Nat.leb nth skipn main_loop].
  unfold bind; cbn zeta. rewrite EL. rewrite EM.
  unfold run_defers, MkdirAll, call, ret in *; cbn [fst snd world trace defers] in *.
  rewrite D'. cbn [close_all]. unfold ret; cbn [fst snd trace].
  rewrite EM, T, <- app_assoc. split; [reflexivity|].
  apply skipn_length_app.
Qed.

(** The program started with a configuration path only. *)
Lemma C4_no_host_address_exits_zero_witness :
  defers Script.st0 = [] /\
  fst (loadConfig Script.ok "config.json" Script.st0) = Ok Script.config /\
  fst (main Script.ok ["k8s-setup"; "config.json"] Script.st0) = 0%Z.
Proof.
  split; [reflexivity|]. split; [vm_compute; reflexivity|].
  apply (C4_no_host_address_exits_zero nat Script.ok "k8s-setup" "config.json"
           Script.st0 Script.config).
  - reflexivity.
  - vm_compute; reflexivity.
  - vm_compute; reflexivity.
Defined.

(** ** Connections *)

(** The loop over the hosts never closes a connection. *)
Lemma emits_main_loop_body {W} (sys : System W) config ip :
  emits (fun e => ~ close_event e) (main_loop_body sys config ip).
Proof.
  intros st.
  destruct (main_loop_body_run sys config ip st) as (st1 & R).
  destruct (host_run_trace _ _ _ _ _ _ _ _ R) as (pre & E1 & F & _ & _ & E').
  exists (pre ++ events_of (saveStatus sys (fst (fst (main_loop_body sys config ip st))))
                           st1
              ++ finish ip (snd (fst (main_loop_body sys config ip st))))%list.
  split; [rewrite E', E1, <- app_assoc; reflexivity|].
  apply Forall_app; split; [|apply Forall_app; split].
  - eapply Forall_impl; [|exact F].
    intros [] H; simpl in *; tauto.
  - destruct (emits_events st1 (emits_saveStatus sys
                (fst (fst (main_loop_body sys config ip st))))) as [_ FS].
    eapply Forall_impl; [|exact FS]. intros [] H; simpl in *; tauto.
  - destruct (snd (fst (main_loop_body sys config ip st)));
      repeat constructor; simpl; tauto.
Qed.

Lemma main_loop_never_closes {W} (sys : System W) config ips :
  emits (fun e => ~ close_event e) (main_loop sys config ips).
Proof.
  induction ips as [|ip rest IH]; simpl.
  - apply emits_ret.
  - apply emits_bind; [apply emits_main_loop_body | intros _; exact IH].
Qed.

(** C8 (the code at the failing input).  With two hosts, the connection to
    the first host is still open when the second host is dialled; both are
    closed only when [main] returns, the last one first.  This is so when
    every phase succeeds on both hosts (first part: the dial and close
    events of the run) and when the requirement check fails on both (second
    part: the whole trace). *)
Theorem C8_connections_closed_only_at_exit :
  let cfg := mkClientConfig "root" [ssh_Password "secret"] ssh_InsecureIgnoreHostKey
                            30000000000 in
  filter is_connection
    (trace (snd (main Script.ok ["k8s-setup"; "config.json"; "h1"; "h2"] Script.st0)))
  = [EvDial "tcp" "h1:22" cfg (Ok 2); EvDial "tcp" "h2:22" cfg (Ok 43);
     EvClientClose 43; EvClientClose 2] /\
  trace (snd (main (Script.sys [] ["uname -a"] false)
                   ["k8s-setup"; "config.json"; "h1"; "h2"] Script.st0))
  = [EvReadFile "config.json" (Ok "{}"); EvMkdirAll "status" 493 None;
     EvNow (TimeAt 1); EvLoggerPrintf "Starting setup for VM h1";
     EvDial "tcp" "h1:22" cfg (Ok 2);
     EvNewSession 2 (Ok 3);
     EvCombinedOutput 3 "uname -a" ("boom", Some "exit status 1");
     EvSessionClose 3; EvWriteFile "status/h1.json" "h1:Failed" 420 None;
     EvNow (TimeAt 4); EvLoggerPrintf "Starting setup for VM h2";
     EvDial "tcp" "h2:22" cfg (Ok 5);
     EvNewSession 5 (Ok 6);
     EvCombinedOutput 6 "uname -a" ("boom", Some "exit status 1");
     EvSessionClose 6; EvWriteFile "status/h2.json" "h2:Failed" 420 None;
     EvClientClose 5; EvClientClose 2].
Proof.
  vm_compute. split; reflexivity.
Qed.

(** * Further properties of the code *)

(** ** Loops over commands *)

Section CommandLoops.
Context {W : Type}.
Variable sys : System W.

Lemma events_of_bind {A B} (m : M W A) (k : A -> M W B) st :
  emits (fun _ => True) m -> (forall a, emits (fun _ => True) (k a)) ->
  events_of (bind m k) st =
  (events_of m st ++ events_of (k (fst (m st))) (snd (m st)))%list.
Proof.
  intros Hm Hk. apply events_of_intro. unfold bind; cbn zeta.
  destruct (emits_events st Hm) as [E1 _].
  destruct (emits_events (snd (m st)) (Hk (fst (m st)))) as [E2 _].
  rewrite E2, E1, app_assoc. reflexivity.
Qed.

Lemma events_of_ret {A} (a : A) (st : St W) : events_of (ret a) st = [].
Proof. apply events_of_intro. simpl. rewrite app_nil_r. reflexivity. Qed.

Lemma emits_any {A} P (m : M W A) : emits P m -> emits (fun _ => True) m.
Proof. apply emits_weaken. auto. Qed.

Lemma run_commands_app a b :
  run_commands (a ++ b) = (run_commands a ++ run_commands b)%list.
Proof.
  induction a as [|e a IH]; simpl; auto.
  destruct e; simpl; rewrite ?IH; reflexivity.
Qed.

Lemma run_commands_quiet tr :
  Forall (fun e => ~ exec_event e) tr -> run_commands tr = [].
Proof.
  induction 1 as [|e tr H F IH]; simpl; auto.
  destruct e; simpl in *; auto. tauto.
Qed.

(** What one call of [executeCommand] does, by cases. *)
Lemma executeCommand_cases client cmd st :
  (exists e,
      events_of (executeCommand sys client cmd) st = [EvNewSession client (Err e)] /\
      fst (executeCommand sys client cmd st) = (EmptyString, Some e)) \/
  (exists s out,
      events_of (executeCommand sys client cmd) st =
      [EvNewSession client (Ok s); EvCombinedOutput s cmd (out, None);
       EvSessionClose s] /\
      fst (executeCommand sys client cmd st) = (out, None)) \/
  (exists s out e,
      events_of (executeCommand sys client cmd) st =
      [EvNewSession client (Ok s); EvCombinedOutput s cmd (out, Some e);
       EvSessionClose s] /\
      fst (executeCommand sys client cmd st) = (out, Some ("command failed: " ++ e))).
Proof.
  unfold executeCommand, bind, NewSession, CombinedOutput, Session_Close, call, act;
    cbn zeta; cbn [fst snd world trace].
  destruct (client_NewSession sys client (world st)) as [[s|e] w] eqn:EN;
    cbn [fst snd].
  - destruct (session_CombinedOutput sys s cmd w) as [[out [e|]] w'] eqn:EC;
      cbn [fst snd]; right; [right; exists s, out, e | left; exists s, out];
      (split; [apply events_of_intro|]);
      unfold bind, call, act, ret; cbn zeta; cbn [fst snd world trace];
      rewrite ?EN; cbn [fst snd world trace]; rewrite ?EC; cbn [fst snd world trace];
      rewrite <- ?app_assoc; reflexivity.
  - left. exists e. split; [apply events_of_intro|];
      unfold bind, call, ret; cbn zeta; cbn [fst snd world trace];
      rewrite ?EN; reflexivity.
Qed.

(** The loop body of the phases: run the command; on an error return it
    wrapped, otherwise do something that runs no command and go on. *)
Lemma one_command_exec client
      (wrap : string -> string -> string -> error)
      (after : string -> string -> M W unit) :
  (forall cmd out, emits (fun e => ~ exec_event e) (after cmd out)) ->
  one_command
    (fun cmd =>
       r <- executeCommand sys client cmd ;;
       match snd r with
       | Some err => ret (Some (wrap cmd err (fst r)))
       | None => after cmd (fst r) ;;; ret None
       end).
Proof.
  intros Ha cmd. split.
  - apply emits_bind; [apply (emits_any _ _ (emits_executeCommand sys client cmd))|].
    intros [out [err|]]; cbn [fst snd]; [apply emits_ret|].
    apply emits_bind; [apply (emits_any _ _ (Ha cmd out)) | intro; apply emits_ret].
  - intros st.
    rewrite (events_of_bind (executeCommand sys client cmd)).
    2: apply (emits_any _ _ (emits_executeCommand sys client cmd)).
    2:{ intros [out [err|]]; cbn [fst snd]; [apply emits_ret|].
        apply emits_bind; [apply (emits_any _ _ (Ha cmd out)) | intro; apply emits_ret]. }
    unfold bind at 1; cbn zeta.
    rewrite run_commands_app.
    destruct (executeCommand_cases client cmd st)
      as [(e & Ev & R) | [(s & out & Ev & R) | (s & out & e & Ev & R)]];
      rewrite Ev, R; cbn [fst snd run_commands].
    + left. rewrite events_of_ret. reflexivity.
    + assert (Hb : emits (fun e => ~ exec_event e)
                         (bind (after cmd out) (fun _ => ret (@None error))))
        by (apply emits_bind; [apply Ha | intro; apply emits_ret]).
      rewrite (run_commands_quiet _ (proj2 (emits_events _ Hb))).
      reflexivity.
    + right. exists e. rewrite events_of_ret. reflexivity.
Qed.

Lemma one_command_run_or prefix client : one_command (run_or sys prefix client).
Proof.
  intros cmd.
  pose proof (one_command_exec client (fun _ err _ => prefix ++ err)
                (fun _ _ => ret tt) (fun _ _ => emits_ret _ tt) cmd) as [He Hs].
  split.
  - unfold run_or. apply emits_bind;
      [apply (emits_any _ _ (emits_executeCommand sys client cmd))|].
    intros [out [err|]]; apply emits_ret.
  - intros st. specialize (Hs st).
    unfold run_or, bind, ret in *; cbn zeta in *.
    destruct (snd (fst (executeCommand sys client cmd st))); cbn [fst snd] in *;
      exact Hs.
Qed.

Lemma ok_runs_app a b : ok_runs (a ++ b) = (ok_runs a ++ ok_runs b)%list.
Proof. apply map_app. Qed.

Lemma Stops_nil : Stops [] (ret (W := W) None).
Proof.
  split; [apply emits_ret|]. intros st. rewrite events_of_ret. reflexivity.
Qed.

Lemma Stops_one (f : string -> M W (option error)) cmd :
  one_command f -> Stops [cmd] (f cmd).
Proof.
  intros Hf. destruct (Hf cmd) as [He Hs]. split; [exact He|].
  intros st. specialize (Hs st). unfold stops_at_first_failure.
  destruct (fst (f cmd st)); [|exact Hs].
  exists [], cmd, []. split; [reflexivity|]. exact Hs.
Qed.

(** Sequencing with [if err != nil { return err }] in between. *)
Lemma Stops_check l1 l2 (m k : M W (option error)) :
  Stops l1 m -> Stops l2 k ->
  Stops (l1 ++ l2)
        (bind m (fun r => match r with Some err => ret (Some err) | None => k end)).
Proof.
  intros [Em Sm] [Ek Sk].
  assert (Ec : forall r : option error,
             emits (fun _ => True)
                   (match r with Some err => ret (Some err) | None => k end))
    by (intros [err|]; [apply emits_ret | exact Ek]).
  split; [apply emits_bind; auto|].
  intros st. rewrite (events_of_bind m _ st Em Ec).
  unfold bind at 1; cbn zeta. rewrite run_commands_app.
  specialize (Sm st). unfold stops_at_first_failure in *.
  destruct (fst (m st)) as [err|].
  - rewrite events_of_ret, app_nil_r. cbn [fst ret].
    destruct Sm as (pre & cmd & post & -> & H).
    exists pre, cmd, (post ++ l2)%list. rewrite <- app_assoc. auto.
  - specialize (Sk (snd (m st))). rewrite Sm.
    destruct (fst (k (snd (m st)))) as [err|].
    + destruct Sk as (pre & cmd & post & -> & H).
      exists (l1 ++ pre)%list, cmd, post. rewrite <- app_assoc. split; [reflexivity|].
      rewrite ok_runs_app.
      destruct H as [-> | (e & ->)]; [left; reflexivity|].
      right. exists e. rewrite app_assoc. reflexivity.
    + rewrite Sk, ok_runs_app. reflexivity.
Qed.

Lemma Stops_for_range (f : string -> M W (option error)) cmds :
  one_command f -> Stops cmds (for_range f cmds).
Proof.
  intros Hf. induction cmds as [|cmd rest IH]; cbn [for_range].
  - apply Stops_nil.
  - apply (Stops_check [cmd] rest); [apply Stops_one; exact Hf | exact IH].
Qed.

(** A step that runs no command and may fail, before more commands. *)
Lemma Stops_step cmd rest (m : M W (option error)) wrap (k : M W (option error)) :
  emits (fun e => ~ exec_event e) m ->
  Stops (cmd :: rest) k ->
  Stops (cmd :: rest)
        (bind m (fun e => match e with
                          | Some err => ret (Some (wrap err))
                          | None => k
                          end)).
Proof.
  intros Em [Ek Sk].
  assert (Ec : forall r : option error,
             emits (fun _ => True)
                   (match r with Some err => ret (Some (wrap err)) | None => k end))
    by (intros [err|]; [apply emits_ret | exact Ek]).
  split; [apply emits_bind; [apply (emits_any _ _ Em) | auto]|].
  intros st. rewrite (events_of_bind m _ st (emits_any _ _ Em) Ec).
  unfold bind at 1; cbn zeta. rewrite run_commands_app.
  rewrite (run_commands_quiet _ (proj2 (emits_events st Em))). cbn [app].
  destruct (fst (m st)) as [err|].
  - rewrite events_of_ret. cbn [fst ret stops_at_first_failure run_commands].
    exists [], cmd, rest. auto.
  - apply Sk.
Qed.
End CommandLoops.

(** ** The phases run their commands in order and stop at the first failure *)

Section Phases.
Context {W : Type}.
Variable sys : System W.


Lemma Stops_setupKubernetes client config :
  Stops (setupKubernetes_commands config) (setupKubernetes sys client config).
Proof.
  unfold setupKubernetes. apply Stops_for_range.
  apply (one_command_exec sys client
           (fun cmd err out =>
              "failed to execute command '" ++ cmd ++ "': " ++ err
                ++ nl ++ "Output: " ++ out)
           (fun _ _ => Sleep sys (2 * time_Second))).
  intros. apply emits_act. simpl. tauto.
Qed.

Lemma Stops_checkSystemRequirements client :
  Stops checkSystemRequirements_commands (checkSystemRequirements sys client).
Proof.
  unfold checkSystemRequirements. apply Stops_for_range.
  apply (one_command_exec sys client
           (fun _ err _ => "system check failed: " ++ err)
           (fun cmd out =>
              log_Printf ("System check output for " ++ cmd ++ ":" ++ nl ++ out))).
  intros. apply emits_act. simpl. tauto.
Qed.

Lemma Stops_verifySetup client :
  Stops verifySetup_commands (verifySetup sys client).
Proof.
  unfold verifySetup. apply Stops_for_range.
  apply (one_command_exec sys client
           (fun cmd err _ => "verification failed for command '" ++ cmd ++ "': " ++ err)
           (fun cmd out =>
              log_Printf ("Verification output for " ++ cmd ++ ":" ++ nl ++ out))).
  intros. apply emits_act. simpl. tauto.
Qed.

Lemma Stops_createBackup client :
  Stops createBackup_commands (createBackup sys client).
Proof.
  unfold createBackup. apply Stops_for_range. apply one_command_run_or.
Qed.

Lemma Stops_setupMonitoring client config :
  Stops (setupMonitoring_commands config) (setupMonitoring sys client config).
Proof.
  unfold setupMonitoring.
  refine (Stops_check ["kubectl create namespace monitoring"]
            (helmCommands ++ installCmd :: grafanaCommands config ++ waitCommands)
            _ _ _ _).
  { apply (Stops_one (run_or sys "failed to create monitoring namespace: " client)).
    apply one_command_run_or. }
  refine (Stops_check helmCommands
            (installCmd :: grafanaCommands config ++ waitCommands) _ _ _ _).
  { apply Stops_for_range, one_command_run_or. }
  apply (Stops_step installCmd (grafanaCommands config ++ waitCommands)
           (WriteFile sys "prometheus-values.yaml" (prometheusValues config) 420)
           (fun err => "failed to create Prometheus values file: " ++ err)).
  { apply emits_call. intros; simpl; tauto. }
  refine (Stops_check [installCmd] (grafanaCommands config ++ waitCommands) _ _ _ _).
  { apply (Stops_one (run_or sys "failed to install Prometheus stack: " client)).
    apply one_command_run_or. }
  refine (Stops_check (grafanaCommands config) waitCommands _ _ _ _).
  { apply Stops_for_range, one_command_run_or. }
  refine (Stops_check waitCommands [] _ _ _ _).
  { apply Stops_for_range, one_command_run_or. }
  apply Stops_nil.
Qed.
End Phases.



(** X2.  [checkSystemRequirements] runs its five commands in order and
    stops at the first failure. *)
Theorem X2_checkSystemRequirements_stops_at_first_failure :
  forall W (sys : System W) client st,
    stops_at_first_failure checkSystemRequirements_commands
      (fst (checkSystemRequirements sys client st))
      (run_commands (events_of (checkSystemRequirements sys client) st)).
Proof. intros. apply Stops_checkSystemRequirements. Qed.



(** X4.  [createBackup] runs its five commands in order and stops at the
    first failure. *)
Theorem X4_createBackup_stops_at_first_failure :
  forall W (sys : System W) client st,
    stops_at_first_failure createBackup_commands
      (fst (createBackup sys client st))
      (run_commands (events_of (createBackup sys client) st)).
Proof. intros. apply Stops_createBackup. Qed.



(** ** What one host run looks like *)

Section Defers.
Context {W : Type}.

Lemma keeps_ret {A} (a : A) : keeps_defers (ret (W := W) a).
Proof. intros st. reflexivity. Qed.

Lemma keeps_bind {A B} (m : M W A) (k : A -> M W B) :
  keeps_defers m -> (forall a, keeps_defers (k a)) -> keeps_defers (bind m k).
Proof.
  intros Hm Hk st. unfold bind; cbn zeta. rewrite Hk. apply Hm.
Qed.

Lemma keeps_call {A} (ev : A -> Event) (f : W -> A * W) : keeps_defers (call ev f).
Proof. intros st. reflexivity. Qed.

Lemma keeps_act (ev : Event) (f : W -> W) : keeps_defers (act ev f).
Proof. intros st. reflexivity. Qed.

Lemma keeps_for_range (f : string -> M W (option error)) cmds :
  (forall cmd, keeps_defers (f cmd)) -> keeps_defers (for_range f cmds).
Proof.
  intros Hf. induction cmds as [|cmd rest IH]; cbn [for_range].
  - apply keeps_ret.
  - apply keeps_bind; auto. intros [err|]; auto using keeps_ret.
Qed.
End Defers.

Ltac keeps_step :=
  match goal with
  | |- keeps_defers (bind _ _) => apply keeps_bind; [|intro]
  | |- keeps_defers (ret _) => apply keeps_ret
  | |- keeps_defers (call _ _) => apply keeps_call
  | |- keeps_defers (act _ _) => apply keeps_act
  | |- keeps_defers (for_range _ _) => apply keeps_for_range; intro
  | |- keeps_defers (match ?x with _ => _ end) => destruct x
  | |- keeps_defers (if ?x then _ else _) => destruct x
  end.

Section HostRunShape.
Context {W : Type}.
Variable sys : System W.

Lemma keeps_executeCommand client cmd :
  keeps_defers (executeCommand sys client cmd).
Proof.
  unfold executeCommand, NewSession, CombinedOutput, Session_Close.
  repeat keeps_step.
Qed.

Lemma keeps_run_or prefix client cmd : keeps_defers (run_or sys prefix client cmd).
Proof.
  unfold run_or. apply keeps_bind; [apply keeps_executeCommand|].
  intro. repeat keeps_step.
Qed.

Ltac keeps_phase :=
  match goal with
  | |- keeps_defers (executeCommand _ _ _) => apply keeps_executeCommand
  | |- keeps_defers (run_or _ _ _ _) => apply keeps_run_or
  | _ => keeps_step
  end.

Lemma keeps_checkSystemRequirements client :
  keeps_defers (checkSystemRequirements sys client).
Proof. unfold checkSystemRequirements, log_Printf. repeat keeps_phase. Qed.

Lemma keeps_setupKubernetes client config :
  keeps_defers (setupKubernetes sys client config).
Proof. unfold setupKubernetes, Sleep. repeat keeps_phase. Qed.

Lemma keeps_setupMonitoring client config :
  keeps_defers (setupMonitoring sys client config).
Proof. unfold setupMonitoring, WriteFile. repeat keeps_phase. Qed.

Lemma keeps_verifySetup client : keeps_defers (verifySetup sys client).
Proof. unfold verifySetup, log_Printf. repeat keeps_phase. Qed.

Lemma keeps_createBackup client : keeps_defers (createBackup sys client).
Proof. unfold createBackup. repeat keeps_phase. Qed.

Lemma keeps_connectSSH config : keeps_defers (connectSSH sys config).
Proof. unfold connectSSH, keyFileAuth, ReadFile, Dial. repeat keeps_step. Qed.

Lemma keeps_saveStatus s : keeps_defers (saveStatus sys s).
Proof. unfold saveStatus, WriteFile. repeat keeps_step. Qed.

Lemma opened_app a b : opened (a ++ b) = (opened a ++ opened b)%list.
Proof.
  induction a as [|e a IH]; simpl; auto.
  destruct e; simpl; rewrite ?IH; auto.
  destruct res; simpl; rewrite ?IH; auto.
Qed.

Lemma opened_none P tr :
  (forall e, P e -> forall n a c r, e <> EvDial n a c r) ->
  Forall P tr -> opened tr = [].
Proof.
  intros HP. induction 1 as [|e tr H F IH]; simpl; auto.
  destruct e; auto. exfalso. eapply HP; eauto.
Qed.

Lemma opened_phase tr : Forall phase_event tr -> opened tr = [].
Proof. apply opened_none. intros [] H; simpl in H; try tauto; discriminate. Qed.

(** [connectSSH] dials at most once, and returns what the dial gave. *)
Lemma connectSSH_opened config st :
  opened (events_of (connectSSH sys config) st) =
  match fst (connectSSH sys config st) with
  | Ok c => [c]
  | Err _ => []
  end.
Proof.
  unfold connectSSH, keyFileAuth.
  destruct (negb (KeyFile config =? EmptyString)%string).
  - unfold bind, ret, ReadFile, Dial, call, events_of; cbn zeta;
      cbn [fst snd world trace].
    destruct (ioutil_ReadFile sys (KeyFile config) (world st)) as [[key|e] w];
      cbn [fst snd world trace];
      [destruct (ssh_ParsePrivateKey sys key) as [signer|e]|];
      cbn [fst snd world trace User HostKeyCallback_ Timeout_];
      rewrite <- ?app_assoc, skipn_length_app; reflexivity.
  - unfold bind, ret, Dial, call, events_of; cbn zeta; cbn [fst snd world trace].
    rewrite skipn_length_app. reflexivity.
Qed.
End HostRunShape.

Section HostRunShape2.
Context {W : Type}.
Variable sys : System W.
Variable config : Config.
Variable ip : string.
Variable st : St W.

Lemma start_state_defers : defers (start_state sys ip st) = defers st.
Proof. reflexivity. Qed.

Lemma reaches_shape c g st1 :
  Reaches sys config ip st c g st1 ->
  exists trC trP,
    trace st1 =
    (trace st ++ [EvNow (start_time sys st);
                  EvLoggerPrintf ("Starting setup for VM " ++ ip)]
       ++ trC ++ trP)%list /\
    Forall connect_event trC /\ opened trC = [c] /\
    Forall phase_event trP /\
    defers st1 = c :: defers st.
Proof.
  assert (PH : forall st1 (m : M W (option error)) st2,
             (exists trC trP,
                 trace st1 =
                 (trace st ++ [EvNow (start_time sys st);
                               EvLoggerPrintf ("Starting setup for VM " ++ ip)]
                    ++ trC ++ trP)%list /\
                 Forall connect_event trC /\ opened trC = [c] /\
                 Forall phase_event trP /\
                 defers st1 = c :: defers st) ->
             emits phase_event m -> keeps_defers m ->
             m st1 = (None, st2) ->
             exists trC trP,
               trace st2 =
               (trace st ++ [EvNow (start_time sys st);
                             EvLoggerPrintf ("Starting setup for VM " ++ ip)]
                  ++ trC ++ trP)%list /\
               Forall connect_event trC /\ opened trC = [c] /\
               Forall phase_event trP /\
               defers st2 = c :: defers st).
  { intros st1' m st2 (trC & trP & E1 & FC & OC & FP & D) Hm Km E.
    destruct (emits_at _ _ _ _ _ Hm E) as (tr2 & E2 & F2).
    exists trC, (trP ++ tr2)%list. rewrite E2, E1.
    repeat split; auto.
    - rewrite <- !app_assoc. reflexivity.
    - apply Forall_app; auto.
    - specialize (Km st1'). rewrite E in Km. cbn [snd] in Km. congruence. }
  induction 1 as [st1 Ec | st1 st2 R IH E | st1 st2 R IH E
                 | st1 st2 R IH E | st1 st2 R IH E].
  - destruct (emits_at _ _ _ _ _ (emits_connectSSH sys _) Ec) as (tr & E & F).
    exists tr, []. cbn [snd defer_Close trace defers].
    rewrite E, start_state_trace, app_nil_r, <- app_assoc.
    repeat split; auto.
    + pose proof (connectSSH_opened sys (vmConfig config ip) (start_state sys ip st))
        as O.
      rewrite Ec in O. cbn [fst] in O. rewrite <- O. f_equal.
      symmetry. apply events_of_intro. rewrite Ec. exact E.
    + pose proof (keeps_connectSSH sys (vmConfig config ip) (start_state sys ip st))
        as K.
      rewrite Ec in K. cbn [snd] in K. rewrite K. reflexivity.
  - apply (PH st1 (checkSystemRequirements sys c) st2 IH);
      auto using emits_checkSystemRequirements, keeps_checkSystemRequirements.
  - apply (PH st1 (setupKubernetes sys c config) st2 IH);
      auto using emits_setupKubernetes, keeps_setupKubernetes.
  - apply (PH st1 (setupMonitoring sys c config) st2 IH);
      auto using emits_setupMonitoring, keeps_setupMonitoring.
  - apply (PH st1 (verifySetup sys c) st2 IH);
      auto using emits_verifySetup, keeps_verifySetup.
Qed.

(** The events of one iteration: the clock and the start message, what
    [connectSSH] does, what the phases do, the tail of a completed run, the
    save, the closing message.  At most one connection is opened, and it is
    left on the deferred calls. *)
Lemma host_run_shape s ex st1 st' :
  HostRun sys config ip st s ex st1 st' ->
  exists trC trP,
    events_of (main_loop_body sys config ip) st =
    ([EvNow (start_time sys st); EvLoggerPrintf ("Starting setup for VM " ++ ip)]
       ++ trC ++ trP ++ host_tail s ex
       ++ events_of (saveStatus sys s) st1 ++ finish ip ex)%list /\
    Forall connect_event trC /\ Forall phase_event trP /\
    (length (opened trC) <= 1)%nat /\
    defers st' = (rev (opened trC) ++ defers st)%list.
Proof.
  intros R.
  assert (S : exists trC trP,
             trace st1 =
             (trace st ++ [EvNow (start_time sys st);
                           EvLoggerPrintf ("Starting setup for VM " ++ ip)]
                ++ trC ++ trP ++ host_tail s ex)%list /\
             Forall connect_event trC /\ Forall phase_event trP /\
             (length (opened trC) <= 1)%nat /\
             defers st' = (rev (opened trC) ++ defers st)%list).
  { assert (PH : forall c g st0 (m : M W (option error)) r st2,
               Reaches sys config ip st c g st0 ->
               emits phase_event m -> keeps_defers m -> m st0 = (r, st2) ->
               exists trC trP,
                 trace st2 =
                 (trace st ++ [EvNow (start_time sys st);
                               EvLoggerPrintf ("Starting setup for VM " ++ ip)]
                    ++ trC ++ trP)%list /\
                 Forall connect_event trC /\ Forall phase_event trP /\
                 opened trC = [c] /\ defers st2 = c :: defers st).
    { intros c g st0 m r st2 R0 Hm Km E.
      destruct (reaches_shape _ _ _ R0) as (trC & trP & E1 & FC & OC & FP & D).
      destruct (emits_at _ _ _ _ _ Hm E) as (tr2 & E2 & F2).
      exists trC, (trP ++ tr2)%list. rewrite E2, E1.
      repeat split; auto.
      - rewrite <- !app_assoc. reflexivity.
      - apply Forall_app; auto.
      - specialize (Km st0). rewrite E in Km. cbn [snd] in Km. congruence. }
    destruct R as [err st1 s Ec Es | client st1 err st2 s R E Es
                  | client st1 err st2 s R E Es | client st1 err st2 s R E Es
                  | client st1 err st2 s R E Es
                  | client st1 b st2 st3 s R E E3 Es].
    - destruct (emits_at _ _ _ _ _ (emits_connectSSH sys _) Ec) as (tr & E & F).
      assert (O : opened tr = []).
      { pose proof (connectSSH_opened sys (vmConfig config ip)
                      (start_state sys ip st)) as O.
        rewrite Ec in O. cbn [fst] in O. rewrite <- O. f_equal.
        symmetry. apply events_of_intro. rewrite Ec. exact E. }
      exists tr, []. cbn [host_tail]. rewrite O.
      rewrite E, start_state_trace, !app_nil_r, <- app_assoc.
      repeat split; auto.
      rewrite keeps_saveStatus.
      pose proof (keeps_connectSSH sys (vmConfig config ip) (start_state sys ip st))
        as K.
      rewrite Ec in K. exact K.
    - destruct (PH _ _ _ _ _ _ R (emits_checkSystemRequirements sys client)
                  (keeps_checkSystemRequirements sys client) E)
        as (trC & trP & E1 & FC & FP & OC & D).
      exists trC, trP. cbn [host_tail]. rewrite app_nil_r, OC, keeps_saveStatus.
      repeat split; auto.
    - destruct (PH _ _ _ _ _ _ R (emits_setupKubernetes sys client config)
                  (keeps_setupKubernetes sys client config) E)
        as (trC & trP & E1 & FC & FP & OC & D).
      exists trC, trP. cbn [host_tail]. rewrite app_nil_r, OC, keeps_saveStatus.
      repeat split; auto.
    - destruct (PH _ _ _ _ _ _ R (emits_setupMonitoring sys client config)
                  (keeps_setupMonitoring sys client config) E)
        as (trC & trP & E1 & FC & FP & OC & D).
      exists trC, trP. cbn [host_tail]. rewrite app_nil_r, OC, keeps_saveStatus.
      repeat split; auto.
    - destruct (PH _ _ _ _ _ _ R (emits_verifySetup sys client)
                  (keeps_verifySetup sys client) E)
        as (trC & trP & E1 & FC & FP & OC & D).
      exists trC, trP. cbn [host_tail]. rewrite app_nil_r, OC, keeps_saveStatus.
      repeat split; auto.
    - destruct (PH _ _ _ _ _ _ R (emits_createBackup sys client)
                  (keeps_createBackup sys client) E)
        as (trC & trP & E1 & FC & FP & OC & D).
      exists trC, trP. subst st3 s. rewrite OC.
      repeat split; auto.
      + destruct b; cbn [host_tail completed EndTime after_backup];
          unfold Now, logger_Printf, call, act; cbn [fst snd trace world];
          rewrite E1, <- !app_assoc; reflexivity.
      + unfold logger_Printf, act; cbn [snd defers]. rewrite keeps_saveStatus.
        destruct b; exact D. }
  destruct S as (trC & trP & E1 & FC & FP & L & D).
  exists trC, trP. repeat split; auto.
  destruct (main_loop_body_events _ _ _ _ _ _ _ _ R) as (pre & Ev & Ep & _).
  rewrite Ep in E1. apply app_inv_head in E1. subst pre.
  rewrite Ev, <- !app_assoc. reflexivity.
Qed.
End HostRunShape2.

(** ** Console output, host by host *)

Section Console.
Context {W : Type}.
Variable sys : System W.

Lemma logger_output_app a b :
  logger_output (a ++ b) = (logger_output a ++ logger_output b)%list.
Proof.
  induction a as [|e a IH]; simpl; auto.
  destruct e; simpl; rewrite ?IH; auto.
Qed.

Lemma logger_output_none P tr :
  (forall e, P e -> forall msg, e <> EvLoggerPrintf msg) ->
  Forall P tr -> logger_output tr = [].
Proof.
  intros HP. induction 1 as [|e tr H F IH]; simpl; auto.
  destruct e; auto. exfalso. eapply HP; eauto.
Qed.

Lemma logger_output_connect tr : Forall connect_event tr -> logger_output tr = [].
Proof.
  apply logger_output_none. intros [] H; simpl in H; try tauto; discriminate.
Qed.

Lemma logger_output_phase tr : Forall phase_event tr -> logger_output tr = [].
Proof.
  apply logger_output_none. intros [] H; simpl in H; try tauto; discriminate.
Qed.

Lemma logger_output_save s st :
  logger_output (events_of (saveStatus sys s) st) = [].
Proof.
  apply (logger_output_none (write_to (statusFile sys (VMIP s)))).
  - intros [] H; simpl in H; try tauto; discriminate.
  - apply (emits_events st (emits_saveStatus sys s)).
Qed.

Lemma emits_any_main_loop_body config ip :
  emits (fun _ => True) (main_loop_body sys config ip).
Proof. apply (emits_any _ _ (emits_main_loop_body sys config ip)). Qed.

Lemma emits_any_main_loop config ips :
  emits (fun _ => True) (main_loop sys config ips).
Proof. apply (emits_any _ _ (main_loop_never_closes sys config ips)). Qed.

Lemma events_of_main_loop_cons config ip rest st :
  events_of (main_loop sys config (ip :: rest)) st =
  (events_of (main_loop_body sys config ip) st
     ++ events_of (main_loop sys config rest)
                  (snd (main_loop_body sys config ip st)))%list.
Proof.
  cbn [main_loop].
  apply (events_of_bind (main_loop_body sys config ip)
           (fun _ => main_loop sys config rest) st).
  - apply emits_any_main_loop_body.
  - intros _. apply emits_any_main_loop.
Qed.
End Console.

Lemma host_logger_output {W} (sys : System W) config ip st :
  logger_output (events_of (main_loop_body sys config ip) st) =
  ("Starting setup for VM " ++ ip)
    :: host_messages ip (snd (fst (main_loop_body sys config ip st))).
Proof.
  destruct (main_loop_body_run sys config ip st) as (st1 & R).
  destruct (host_run_shape _ _ _ _ _ _ _ _ R) as (trC & trP & Ev & FC & FP & _).
  rewrite Ev. rewrite !logger_output_app.
  rewrite (logger_output_connect trC FC), (logger_output_phase trP FP),
    logger_output_save.
  cbn [logger_output app]. f_equal.
  destruct (snd (fst (main_loop_body sys config ip st))) as [| | | | |[err|]];
    reflexivity.
Qed.

(** X6.  What [logger] prints during one host's iteration is the start
    message and then, only if the host reached the end of the pipeline, the
    warning of a failed backup (if it failed) followed by the completion
    message.  A host that failed prints nothing but its start message: the
    failure is visible in its saved record only. *)
Theorem X6_logger_output_of_a_host :
  forall W (sys : System W) config ip st,
    logger_output (events_of (main_loop_body sys config ip) st) =
    ("Starting setup for VM " ++ ip)
      :: host_messages ip (snd (fst (main_loop_body sys config ip st))).
Proof. intros. apply host_logger_output. Qed.

(** X7.  Whatever happens to a host, the loop goes on with the next one:
    the output of [logger] for a list of hosts is made of one block per
    host of the list, in the order of the list, each beginning with that
    host's start message and continuing with that host's messages only. *)
Theorem X7_every_host_is_started_in_order :
  forall W (sys : System W) config ips st,
    exists blocks,
      Forall2 (fun ip block =>
                 exists ex, block = ("Starting setup for VM " ++ ip)
                                      :: host_messages ip ex)
              ips blocks /\
      logger_output (events_of (main_loop sys config ips) st) = concat blocks.
Proof.
  intros W sys config ips. induction ips as [|ip rest IH]; intros st.
  - exists []. split; [constructor|].
    cbn [main_loop]. rewrite events_of_ret. reflexivity.
  - destruct (IH (snd (main_loop_body sys config ip st))) as (blocks & F & E).
    exists ((("Starting setup for VM " ++ ip)
               :: host_messages ip (snd (fst (main_loop_body sys config ip st))))
              :: blocks).
    split; [constructor; eauto|].
    rewrite events_of_main_loop_cons, logger_output_app, E, host_logger_output.
    reflexivity.
Qed.

(** ** Connections are closed when [main] returns *)

Section Closing.
Context {W : Type}.
Variable sys : System W.

Lemma opened_save s st : opened (events_of (saveStatus sys s) st) = [].
Proof.
  apply (opened_none (write_to (statusFile sys (VMIP s)))).
  - intros [] H; simpl in H; try tauto; discriminate.
  - apply (emits_events st (emits_saveStatus sys s)).
Qed.

Lemma main_loop_body_defers config ip st :
  defers (snd (main_loop_body sys config ip st)) =
  (rev (opened (events_of (main_loop_body sys config ip) st)) ++ defers st)%list /\
  (length (opened (events_of (main_loop_body sys config ip) st)) <= 1)%nat.
Proof.
  destruct (main_loop_body_run sys config ip st) as (st1 & R).
  destruct (host_run_shape _ _ _ _ _ _ _ _ R)
    as (trC & trP & Ev & FC & FP & L & D).
  assert (O : opened (events_of (main_loop_body sys config ip) st) = opened trC).
  { rewrite Ev. cbn [app opened]. rewrite !opened_app.
    rewrite (opened_phase trP FP), opened_save.
    assert (T : opened (host_tail (fst (fst (main_loop_body sys config ip st)))
                          (snd (fst (main_loop_body sys config ip st)))) = []).
    { destruct (snd (fst (main_loop_body sys config ip st))) as [| | | | |[err|]];
        reflexivity. }
    assert (F : opened (finish ip (snd (fst (main_loop_body sys config ip st)))) = []).
    { destruct (snd (fst (main_loop_body sys config ip st))); reflexivity. }
    rewrite T, F, !app_nil_r. reflexivity. }
  rewrite O. auto.
Qed.

Lemma main_loop_defers config ips st :
  defers (snd (main_loop sys config ips st)) =
  (rev (opened (events_of (main_loop sys config ips) st)) ++ defers st)%list.
Proof.
  revert st. induction ips as [|ip rest IH]; intros st.
  - cbn [main_loop]. rewrite events_of_ret. reflexivity.
  - rewrite events_of_main_loop_cons, opened_app, rev_app_distr, <- app_assoc.
    rewrite <- (proj1 (main_loop_body_defers config ip st)), <- IH.
    reflexivity.
Qed.

Lemma close_all_trace cs (st : St W) :
  trace (snd (close_all sys cs st)) = (trace st ++ map EvClientClose cs)%list.
Proof.
  revert st. induction cs as [|c rest IH]; intros st; cbn [close_all map].
  - cbn [ret snd]. rewrite app_nil_r. reflexivity.
  - unfold bind; cbn zeta. rewrite IH.
    unfold Client_Close, act; cbn [snd trace]. rewrite <- app_assoc. reflexivity.
Qed.

Lemma loadConfig_trace path st :
  trace (snd (loadConfig sys path st)) =
  (trace st ++ [EvReadFile path (fst (ioutil_ReadFile sys path (world st)))])%list /\
  defers (snd (loadConfig sys path st)) = defers st.
Proof.
  unfold loadConfig, bind, ReadFile, call; cbn zeta; cbn [fst snd].
  destruct (fst (ioutil_ReadFile sys path (world st))) as [data|e];
    [destruct (json_Unmarshal sys data)|]; split; reflexivity.
Qed.
End Closing.

(** X8.  When [main] gets past its start-up (configuration loaded, status
    directory created), it reads the configuration, creates the directory,
    runs the loop over the hosts, during which no connection is closed, and
    then closes every connection that a successful dial opened, each exactly
    once, the last opened first; the exit status is 0. *)
Theorem X8_connections_closed_at_exit_in_reverse_order :
  forall W (sys : System W) prog configPath ips st config,
    defers st = [] ->
    fst (loadConfig sys configPath st) = Ok config ->
    fst (MkdirAll sys "status" 493 (snd (loadConfig sys configPath st))) = None ->
    let hosts :=
      events_of (main_loop sys config ips)
                (snd (MkdirAll sys "status" 493 (snd (loadConfig sys configPath st)))) in
    events_of (main sys (prog :: configPath :: ips)) st =
    ([EvReadFile configPath (fst (ioutil_ReadFile sys configPath (world st)));
      EvMkdirAll "status" 493 None]
       ++ hosts ++ map EvClientClose (rev (opened hosts)))%list /\
    Forall (fun e => ~ close_event e) hosts /\
    fst (main sys (prog :: configPath :: ips) st) = 0%Z.
Proof.
  intros W sys prog configPath ips st config D EL EM hosts.
  destruct (loadConfig_trace sys configPath st) as [TL DL].
  set (stL := snd (loadConfig sys configPath st)) in *.
  set (stM := snd (MkdirAll sys "status" 493 stL)) in *.
  assert (TM : trace stM = (trace stL ++ [EvMkdirAll "status" 493 None])%list).
  { unfold stM, MkdirAll, call in *; cbn [fst snd trace] in *. rewrite EM.
    reflexivity. }
  assert (DM : defers stM = []) by (unfold stM; cbn; congruence).
  destruct (emits_events stM (main_loop_never_closes sys config ips)) as [TH FH].
  fold hosts in TH, FH.
  pose proof (main_loop_defers sys config ips stM) as DH. fold hosts in DH.
  rewrite DM, app_nil_r in DH.
  assert (R : main sys (prog :: configPath :: ips) st =
              (0%Z, snd (close_all sys (defers (snd (main_loop sys config ips stM)))
                           (mkSt (world (snd (main_loop sys config ips stM)))
                                 (trace (snd (main_loop sys config ips stM))) [])))).
  { unfold main. cbn [length Nat.ltb Nat.leb nth skipn].
    unfold bind; cbn zeta. fold stL. rewrite EL. fold stM. rewrite EM.
    reflexivity. }
  split; [|split; [exact FH | rewrite R; reflexivity]].
  apply events_of_intro. rewrite R. cbn [snd].
  rewrite close_all_trace. cbn [trace]. rewrite DH, TH, TM, TL.
  rewrite <- !app_assoc. reflexivity.
Qed.

(** Two hosts, both reachable. *)
Lemma X8_connections_closed_at_exit_in_reverse_order_witness :
  defers Script.st0 = [] /\
  fst (loadConfig Script.ok "config.json" Script.st0) = Ok Script.config /\
  fst (MkdirAll Script.ok "status" 493
         (snd (loadConfig Script.ok "config.json" Script.st0))) = None /\
  fst (main Script.ok ["k8s-setup"; "config.json"; "h1"; "h2"] Script.st0) = 0%Z.
Proof.
  split; [reflexivity|]. split; [vm_compute; reflexivity|].
  split; [vm_compute; reflexivity|].
  apply (X8_connections_closed_at_exit_in_reverse_order
           nat Script.ok "k8s-setup" "config.json" ["h1"; "h2"] Script.st0
           Script.config).
  - reflexivity.
  - vm_compute; reflexivity.
  - vm_compute; reflexivity.
Defined.

(** ** Sessions *)

Section Sessions.
Context {W : Type}.
Variable sys : System W.

Lemma SessionsClosed_app a b :
  SessionsClosed a -> SessionsClosed b -> SessionsClosed (a ++ b).
Proof.
  induction 1; intros Hb; cbn [app]; auto;
    [apply SessionsOther | apply SessionsRefused | apply SessionsOne]; auto.
Qed.

Lemma SessionsClosed_quiet tr :
  Forall (fun e => ~ exec_event e) tr -> SessionsClosed tr.
Proof. induction 1; constructor; auto. Qed.

Lemma sc_ret {A} (a : A) : produces SessionsClosed (ret (W := W) a).
Proof. intros st. exists []. cbn. rewrite app_nil_r. split; constructor. Qed.

Lemma sc_bind {A B} (m : M W A) (k : A -> M W B) :
  produces SessionsClosed m -> (forall a, produces SessionsClosed (k a)) ->
  produces SessionsClosed (bind m k).
Proof.
  intros Hm Hk st. unfold bind; cbn zeta.
  destruct (Hm st) as (t1 & E1 & S1).
  destruct (Hk (fst (m st)) (snd (m st))) as (t2 & E2 & S2).
  exists (t1 ++ t2)%list. rewrite E2, E1, app_assoc. split; auto.
  apply SessionsClosed_app; auto.
Qed.

Lemma sc_emits {A} (m : M W A) :
  emits (fun e => ~ exec_event e) m -> produces SessionsClosed m.
Proof.
  intros H st. destruct (H st) as (tr & E & F).
  exists tr. split; auto. apply SessionsClosed_quiet; auto.
Qed.

Lemma sc_executeCommand client cmd :
  produces SessionsClosed (executeCommand sys client cmd).
Proof.
  intros st. exists (events_of (executeCommand sys client cmd) st).
  split; [apply (emits_events st (emits_executeCommand sys client cmd))|].
  destruct (executeCommand_cases sys client cmd st)
    as [(e & -> & _) | [(s & out & -> & _) | (s & out & e & -> & _)]];
    [apply SessionsRefused | apply SessionsOne | apply SessionsOne];
    apply SessionsNil.
Qed.

Lemma sc_for_range (f : string -> M W (option error)) cmds :
  (forall cmd, produces SessionsClosed (f cmd)) ->
  produces SessionsClosed (for_range f cmds).
Proof.
  intros Hf. induction cmds as [|cmd rest IH]; cbn [for_range].
  - apply sc_ret.
  - apply sc_bind; auto. intros [err|]; auto using sc_ret.
Qed.

Lemma sc_connectSSH config : produces SessionsClosed (connectSSH sys config).
Proof.
  apply sc_emits, (emits_weaken connect_event), emits_connectSSH.
  intros [] H; simpl in *; tauto.
Qed.

Lemma sc_saveStatus s : produces SessionsClosed (saveStatus sys s).
Proof.
  apply sc_emits, (emits_weaken (write_to (statusFile sys (VMIP s)))),
    emits_saveStatus.
  intros [] H; simpl in *; tauto.
Qed.

Ltac sc_step :=
  match goal with
  | |- produces SessionsClosed (bind _ _) => apply sc_bind; [|intro]
  | |- produces SessionsClosed (ret _) => apply sc_ret
  | |- produces SessionsClosed (executeCommand _ _ _) => apply sc_executeCommand
  | |- produces SessionsClosed (connectSSH _ _) => apply sc_connectSSH
  | |- produces SessionsClosed (saveStatus _ _) => apply sc_saveStatus
  | |- produces SessionsClosed (for_range _ _) => apply sc_for_range; intro
  | |- produces SessionsClosed (call _ _) =>
      apply sc_emits, emits_call; intros; simpl; tauto
  | |- produces SessionsClosed (act _ _) =>
      apply sc_emits, emits_act; simpl; tauto
  | |- produces SessionsClosed (defer_Close _) => apply sc_emits, emits_defer
  | |- produces SessionsClosed (match ?x with _ => _ end) => destruct x
  | |- produces SessionsClosed (if ?x then _ else _) => destruct x
  end.

Lemma sc_main_loop_body config ip :
  produces SessionsClosed (main_loop_body sys config ip).
Proof.
  unfold main_loop_body, checkSystemRequirements, setupKubernetes, setupMonitoring,
    verifySetup, createBackup, run_or, Now, Sleep, WriteFile, logger_Printf,
    log_Printf.
  repeat sc_step.
Qed.

Lemma sc_main_loop config ips : produces SessionsClosed (main_loop sys config ips).
Proof.
  induction ips as [|ip rest IH]; cbn [main_loop].
  - apply sc_ret.
  - apply sc_bind; [apply sc_main_loop_body | intros _; exact IH].
Qed.

Lemma sc_run_defers : produces SessionsClosed (run_defers sys).
Proof.
  intros st. exists (map EvClientClose (defers st)).
  unfold run_defers. rewrite close_all_trace. split; [reflexivity|].
  apply SessionsClosed_quiet. apply Forall_forall.
  intros e H. apply in_map_iff in H. destruct H as (c & <- & _). simpl. tauto.
Qed.

Lemma sc_main os_Args : produces SessionsClosed (main sys os_Args).
Proof.
  unfold main, loadConfig, logger_Fatal, logger_Printf, ReadFile, MkdirAll.
  repeat first [ apply sc_main_loop | apply sc_run_defers | sc_step ].
Qed.
End Sessions.

(** X9.  In every run of the program, whatever the arguments and whatever
    the outside world does, each session that is opened is used for exactly
    one command and closed right after it, before anything else happens; a
    session that could not be opened is followed by no command on it. *)
Theorem X9_every_session_is_closed :
  forall W (sys : System W) os_Args st,
    SessionsClosed (events_of (main sys os_Args) st).
Proof.
  intros W sys os_Args st.
  destruct (sc_main sys os_Args st) as (tr & E & S).
  rewrite (events_of_intro _ _ _ E). exact S.
Qed.

(** ** Final records and status files *)

Section Records.
Context {W : Type}.
Variable sys : System W.

(** The final record, by the exit taken. *)
Lemma final_record config ip st :
  let s := fst (fst (main_loop_body sys config ip st)) in
  let ex := snd (fst (main_loop_body sys config ip st)) in
  VMIP s = ip /\
  StartTime s = start_time sys st /\
  CompletedSteps s = firstn (steps_done ex) all_steps /\
  (Status s = "Completed" /\ stage_of ex = 5 \/
   Status s = "Failed" /\ stage_of ex < 5).
Proof.
  destruct (main_loop_body sys config ip st) as [[s ex] st'] eqn:E.
  apply main_loop_body_iff in E. destruct E as (st1 & R).
  cbv zeta. cbn [fst snd].
  destruct R as [err st1 s Ec Es | client st1 err st2 s R E Es
                | client st1 err st2 s R E Es | client st1 err st2 s R E Es
                | client st1 err st2 s R E Es
                | client st1 b st2 st3 s R E E3 Es];
    subst; cbn; repeat split; auto;
    try (right; split; [reflexivity | lia]);
    try (destruct b; reflexivity).
Qed.

Lemma status_writes_app a b :
  status_writes (a ++ b) = (status_writes a ++ status_writes b)%list.
Proof.
  induction a as [|e a IH]; cbn [app status_writes]; auto.
  destruct e; rewrite ?IH; auto.
  destruct (path =? "prometheus-values.yaml")%string; rewrite ?IH; reflexivity.
Qed.

Lemma status_writes_none P tr :
  (forall e, P e -> forall p d m r,
        e = EvWriteFile p d m r -> p = "prometheus-values.yaml") ->
  Forall P tr -> status_writes tr = [].
Proof.
  intros HP. induction 1 as [|e tr H F IH]; cbn [status_writes]; auto.
  destruct e; auto.
  rewrite (HP _ H _ _ _ _ eq_refl). cbn. exact IH.
Qed.

Lemma status_writes_connect tr : Forall connect_event tr -> status_writes tr = [].
Proof.
  apply status_writes_none. intros [] H; simpl in H; try tauto; discriminate.
Qed.

Lemma status_writes_phase tr : Forall phase_event tr -> status_writes tr = [].
Proof.
  apply status_writes_none.
  intros [] H; simpl in H; try tauto; try discriminate.
  intros p d m r [= -> _ _ _]. exact H.
Qed.

(** The one status write of an iteration. *)
Lemma host_status_write config ip st data :
  json_MarshalIndent sys (fst (fst (main_loop_body sys config ip st))) = Ok data ->
  statusFile sys ip <> "prometheus-values.yaml" ->
  exists res,
    status_writes (events_of (main_loop_body sys config ip) st) =
    [(statusFile sys ip, data, res)].
Proof.
  intros M N.
  destruct (main_loop_body_run sys config ip st) as (st1 & R).
  destruct (host_run_shape _ _ _ _ _ _ _ _ R) as (trC & trP & Ev & FC & FP & _).
  rewrite Ev. cbn [app status_writes]. rewrite !status_writes_app.
  rewrite (status_writes_connect trC FC), (status_writes_phase trP FP).
  rewrite (saveStatus_events sys _ data st1 M).
  destruct (final_record config ip st) as (V & _). cbv zeta in V. rewrite V.
  assert (T : status_writes (host_tail (fst (fst (main_loop_body sys config ip st)))
                               (snd (fst (main_loop_body sys config ip st)))) = []).
  { destruct (snd (fst (main_loop_body sys config ip st))) as [| | | | |[err|]];
      reflexivity. }
  assert (F : status_writes (finish ip (snd (fst (main_loop_body sys config ip st))))
              = []).
  { destruct (snd (fst (main_loop_body sys config ip st))); reflexivity. }
  rewrite T, F. cbn [app status_writes].
  destruct (String.eqb_spec (statusFile sys ip) "prometheus-values.yaml");
    [contradiction|].
  eexists. reflexivity.
Qed.
End Records.

(** X10.  When serialising a record never fails and no host's status file
    is the values file, a run over a list of hosts writes, besides the
    values file, exactly one file per host, in the order of the list: the
    host's status file, holding the serialisation of a record of that host
    whose state is "Completed" or "Failed".  A record that is "In Progress"
    is never written. *)
Theorem X10_one_terminal_record_written_per_host :
  forall W (sys : System W) config ips st,
    (forall s, exists data, json_MarshalIndent sys s = Ok data) ->
    Forall (fun ip => statusFile sys ip <> "prometheus-values.yaml") ips ->
    Forall2 (fun ip w =>
               exists s data res,
                 w = (statusFile sys ip, data, res) /\
                 json_MarshalIndent sys s = Ok data /\
                 VMIP s = ip /\
                 (Status s = "Completed" \/ Status s = "Failed"))
            ips (status_writes (events_of (main_loop sys config ips) st)).
Proof.
  intros W sys config ips st HM HN. revert st.
  induction HN as [|ip rest N HN IH]; intros st.
  - cbn [main_loop]. rewrite events_of_ret. constructor.
  - rewrite events_of_main_loop_cons, status_writes_app.
    destruct (HM (fst (fst (main_loop_body sys config ip st)))) as (data & M).
    destruct (host_status_write sys config ip st data M N) as (res & ->).
    cbn [app]. constructor; [|apply IH].
    destruct (final_record sys config ip st) as (V & _ & _ & T). cbv zeta in V, T.
    exists (fst (fst (main_loop_body sys config ip st))), data, res.
    repeat split; auto. tauto.
Qed.

(** Two hosts; the first one is refused. *)
Lemma X10_one_terminal_record_written_per_host_witness :
  (forall s, exists data, json_MarshalIndent Script.refused s = Ok data) /\
  Forall (fun ip => statusFile Script.refused ip <> "prometheus-values.yaml")
         ["h1"; "h2"] /\
  map (fun w => fst (fst w))
      (status_writes (events_of (main_loop Script.refused Script.config ["h1"; "h2"])
                                Script.st0))
  = ["status/h1.json"; "status/h2.json"].
Proof.
  assert (HM : forall s, exists data, json_MarshalIndent Script.refused s = Ok data)
    by (intros s; eexists; reflexivity).
  assert (HN : Forall (fun ip => statusFile Script.refused ip
                                 <> "prometheus-values.yaml") ["h1"; "h2"])
    by (repeat constructor; vm_compute; discriminate).
  split; [exact HM|]. split; [exact HN|].
  pose proof (X10_one_terminal_record_written_per_host
                nat Script.refused Script.config ["h1"; "h2"] Script.st0 HM HN) as H.
  inversion H as [|ip1 w1 r1 ws1 (s1 & d1 & res1 & E1 & _) H1 Ei1 Ew1]; subst.
  inversion H1 as [|ip2 w2 r2 ws2 (s2 & d2 & res2 & E2 & _) H2 Ei2 Ew2]; subst.
  inversion H2; subst. reflexivity.
Defined.

(** X11.  The final record of every host run names the host, keeps the
    start time read when the run began, and lists as completed a prefix of
    [kubernetes; monitoring; verification; backup], in that order and
    without repetition: none before [setupKubernetes] has succeeded, one
    more for each later phase that succeeded.  It is "Completed" with at
    least the first three steps, or "Failed" with at most two. *)
Theorem X11_final_record_lists_a_prefix_of_the_steps :
  forall W (sys : System W) config ip st,
    let s := fst (fst (main_loop_body sys config ip st)) in
    let ex := snd (fst (main_loop_body sys config ip st)) in
    VMIP s = ip /\
    StartTime s = start_time sys st /\
    CompletedSteps s = firstn (steps_done ex) all_steps /\
    NoDup (CompletedSteps s) /\
    (Status s = "Completed" /\ 3 <= length (CompletedSteps s) \/
     Status s = "Failed" /\ length (CompletedSteps s) <= 2).
Proof.
  intros W sys config ip st s ex.
  destruct (final_record sys config ip st) as (V & T & C & S).
  fold s ex in V, T, C, S.
  repeat split; auto.
  - rewrite C. destruct ex as [| | | | |[err|]]; cbn;
      repeat constructor; cbn; intuition discriminate.
  - rewrite C.
    destruct S as [[S E]|[S E]]; [left|right]; split; auto;
      destruct ex as [| | | | |[err|]]; cbn in *; lia.
Qed.

(** X12.  The [Error] text of a final record tells at which stage the run
    ended: two host runs, on any hosts and in any worlds, whose final records
    carry the same [Error] ended at the same stage (connection, requirement
    check, Kubernetes, monitoring, verification, or the end).  In
    particular a connection failure and a requirement-check failure, which
    both leave [CurrentStep] at "Initializing", are told apart by it. *)
Theorem X12_error_text_identifies_the_stage :
  forall W1 (sys1 : System W1) config1 ip1 st1
         W2 (sys2 : System W2) config2 ip2 st2,
    Error (fst (fst (main_loop_body sys1 config1 ip1 st1))) =
    Error (fst (fst (main_loop_body sys2 config2 ip2 st2))) ->
    stage_of (snd (fst (main_loop_body sys1 config1 ip1 st1))) =
    stage_of (snd (fst (main_loop_body sys2 config2 ip2 st2))).
Proof.
  intros W1 sys1 config1 ip1 st1 W2 sys2 config2 ip2 st2.
  destruct (main_loop_body sys1 config1 ip1 st1) as [[s1 ex1] st1'] eqn:E1.
  destruct (main_loop_body sys2 config2 ip2 st2) as [[s2 ex2] st2'] eqn:E2.
  apply main_loop_body_iff in E1. destruct E1 as (sv1 & R1).
  apply main_loop_body_iff in E2. destruct E2 as (sv2 & R2).
  cbn [fst snd].
  destruct R1; destruct R2; subst; cbn; intros HE;
    first [reflexivity | discriminate HE].
Qed.

(** The same refusal, met in two different states of the world. *)
Lemma X12_error_text_identifies_the_stage_witness :
  Error (fst (fst (main_loop_body Script.refused Script.config "h1" Script.st0))) =
  Error (fst (fst (main_loop_body Script.refused Script.config "h1" (mkSt 7 [] [])))) /\
  stage_of (snd (fst (main_loop_body Script.refused Script.config "h1" Script.st0))) =
  stage_of (snd (fst (main_loop_body Script.refused Script.config "h1" (mkSt 7 [] [])))).
Proof.
  assert (HE : Error (fst (fst (main_loop_body Script.refused Script.config "h1"
                                  Script.st0))) =
               Error (fst (fst (main_loop_body Script.refused Script.config "h1"
                                  (mkSt 7 [] [])))))
    by (vm_compute; reflexivity).
  split; [exact HE|].
  apply (X12_error_text_identifies_the_stage
           nat Script.refused Script.config "h1" Script.st0
           nat Script.refused Script.config "h1" (mkSt 7 [] []) HE).
Defined.

(** ** [Connect] of package ssh and [connectSSH] *)

(** X13.  [Connect] (package ssh) and [connectSSH] (main.go) do the same
    things to the outside world and succeed together, with the same client.
    They differ in one error text only: when the dial itself fails,
    [Connect] puts "failed to dial: " before the error that [connectSSH]
    returns as it is; errors of the key file are the same in both. *)
Theorem X13_Connect_agrees_with_connectSSH :
  forall W (sys : System W) config st,
    snd (ssh_Connect sys config st) = snd (connectSSH sys config st) /\
    match fst (connectSSH sys config st) with
    | Ok client => fst (ssh_Connect sys config st) = Ok client
    | Err e =>
        match fst (keyFileAuth sys config
                     (mkClientConfig (Username config)
                        [ssh_Password (Password config)]
                        ssh_InsecureIgnoreHostKey (Timeout config)) st) with
        | Err _ => fst (ssh_Connect sys config st) = Err e
        | Ok _ => fst (ssh_Connect sys config st) = Err ("failed to dial: " ++ e)
        end
    end.
Proof.
  intros W sys config st.
  unfold ssh_Connect, connectSSH, bind; cbn zeta.
  destruct (fst (keyFileAuth sys config _ st)) as [cfg|e]; cbn [ret fst snd].
  - unfold bind, Dial, call; cbn zeta; cbn [fst snd].
    destruct (fst (ssh_Dial sys "tcp" (IP config ++ ":22") cfg _)) as [c|e];
      split; reflexivity.
  - split; reflexivity.
Qed.

(** ** The copies in the packages *)


(** ** The connection timeout *)

(** X15.  The timeout of the configuration, in seconds, becomes the
    [time.Duration] of the connection without loss as long as it is at most
    9223372036 seconds in absolute value; one second more and the [int64]
    multiplication wraps around to a negative duration. *)
Theorem X15_timeout_seconds_to_duration :
  forall config ip,
    (-9223372036 <= ssh_Timeout (SSHConfig config) <= 9223372036)%Z ->
    Timeout (vmConfig config ip) =
    (ssh_Timeout (SSHConfig config) * 1000000000)%Z /\
    (wrap64 (9223372037 * time_Second) < 0)%Z.
Proof.
  intros config ip H. split; [|reflexivity].
  cbn [vmConfig Timeout]. unfold wrap64, time_Second.
  rewrite Z.mod_small by lia. lia.
Qed.

(** The thirty seconds of the sample configuration. *)
Lemma X15_timeout_seconds_to_duration_witness :
  (-9223372036 <= ssh_Timeout (SSHConfig Script.config) <= 9223372036)%Z /\
  Timeout (vmConfig Script.config "h1") = 30000000000%Z.
Proof.
  assert (H : (-9223372036 <= ssh_Timeout (SSHConfig Script.config) <= 9223372036)%Z)
    by (cbn; lia).
  split; [exact H|].
  rewrite (proj1 (X15_timeout_seconds_to_duration Script.config "h1" H)).
  reflexivity.
Defined.

(** ** Start-up failures *)

(** X16.  [main] ends with exit status 1, having contacted no host, in
    three cases, and prints one message in each: fewer than two arguments
    (the usage text, nothing else done); a configuration file that cannot be
    read or parsed (after the one read); a status directory that cannot be
    created (after the read and the one attempt).  Otherwise, whatever
    happens to the hosts, the exit status is 0. *)
Theorem X16_start_up_failures_exit_with_one :
  forall W (sys : System W) os_Args st,
    let path := nth 1 os_Args EmptyString in
    let read := EvReadFile path (fst (ioutil_ReadFile sys path (world st))) in
    (length os_Args < 2 ->
     fst (main sys os_Args st) = 1%Z /\
     events_of (main sys os_Args) st =
     [EvLoggerPrintf "Usage: ./k8s-setup <config.json> <ip1> <ip2> <ip3> ..."]) /\
    (forall e,
        2 <= length os_Args ->
        fst (loadConfig sys path st) = Err e ->
        fst (main sys os_Args st) = 1%Z /\
        events_of (main sys os_Args) st =
        [read; EvLoggerPrintf ("Failed to load configuration: " ++ e)] /\
        ((exists e0, e = "failed to read config file: " ++ e0) \/
         (exists e0, e = "failed to parse config file: " ++ e0))) /\
    (forall config e,
        2 <= length os_Args ->
        fst (loadConfig sys path st) = Ok config ->
        fst (MkdirAll sys "status" 493 (snd (loadConfig sys path st))) = Some e ->
        fst (main sys os_Args st) = 1%Z /\
        events_of (main sys os_Args) st =
        [read; EvMkdirAll "status" 493 (Some e);
         EvLoggerPrintf ("Failed to create status directory: " ++ e)]) /\
    (forall config,
        2 <= length os_Args ->
        fst (loadConfig sys path st) = Ok config ->
        fst (MkdirAll sys "status" 493 (snd (loadConfig sys path st))) = None ->
        fst (main sys os_Args st) = 0%Z).
Proof.
  intros W sys os_Args st path read.
  destruct (loadConfig_trace sys path st) as [TL _]. fold read in TL.
  assert (FATAL : forall msg (st0 : St W),
             logger_Fatal msg st0 =
             (1%Z, mkSt (world st0) (trace st0 ++ [EvLoggerPrintf msg]) (defers st0)))
    by reflexivity.
  split; [|split; [|split]].
  - intros L.
    assert (R : main sys os_Args st =
                logger_Fatal "Usage: ./k8s-setup <config.json> <ip1> <ip2> <ip3> ..."
                             st).
    { unfold main. destruct (Nat.ltb_spec (length os_Args) 2); [reflexivity | lia]. }
    split; [rewrite R; reflexivity|].
    apply events_of_intro. rewrite R, FATAL. reflexivity.
  - intros e L EL.
    assert (R : main sys os_Args st =
                logger_Fatal ("Failed to load configuration: " ++ e)
                             (snd (loadConfig sys path st))).
    { unfold main. destruct (Nat.ltb_spec (length os_Args) 2); [lia|].
      unfold bind; cbn zeta. fold path. rewrite EL. reflexivity. }
    split; [rewrite R; reflexivity|]. split.
    + apply events_of_intro. rewrite R, FATAL. cbn [snd trace].
      rewrite TL, <- app_assoc. reflexivity.
    + revert EL. unfold loadConfig, bind, ReadFile, call; cbn zeta; cbn [fst snd].
      destruct (fst (ioutil_ReadFile sys path (world st))) as [data|e0];
        [destruct (json_Unmarshal sys data) as [c|e0]|]; cbn [ret fst];
        intros EL';
        [ discriminate EL'
        | injection EL' as <-; right; exists e0; reflexivity
        | injection EL' as <-; left; exists e0; reflexivity ].
  - intros config e L EL EM.
    assert (R : main sys os_Args st =
                logger_Fatal ("Failed to create status directory: " ++ e)
                             (snd (MkdirAll sys "status" 493
                                     (snd (loadConfig sys path st))))).
    { unfold main. destruct (Nat.ltb_spec (length os_Args) 2); [lia|].
      unfold bind; cbn zeta. fold path. rewrite EL, EM. reflexivity. }
    split; [rewrite R; reflexivity|].
    apply events_of_intro. rewrite R, FATAL. cbn [snd trace].
    unfold MkdirAll, call in *; cbn [fst snd trace] in *.
    rewrite EM, TL, <- !app_assoc. reflexivity.
  - intros config L EL EM.
    unfold main. destruct (Nat.ltb_spec (length os_Args) 2); [lia|].
    unfold bind; cbn zeta. fold path. rewrite EL, EM. reflexivity.
Qed.

(** The program started without any argument. *)
Lemma X16_start_up_failures_exit_with_one_witness :
  length ["k8s-setup"] < 2 /\
  fst (main Script.ok ["k8s-setup"] Script.st0) = 1%Z.
Proof.
  assert (H : length ["k8s-setup"] < 2) by (cbn; lia).
  split; [exact H|].
  apply (proj1 (X16_start_up_failures_exit_with_one nat Script.ok ["k8s-setup"]
                  Script.st0) H).
Defined.

(** ** The loop over the hosts *)

(** X17.  Serving a list of hosts is serving a first part of it and then,
    from the state this leaves, the rest: the hosts share nothing but the
    outside world and the deferred closes. *)
Theorem X17_main_loop_over_an_appended_list :
  forall W (sys : System W) config ips1 ips2 st,
    main_loop sys config (ips1 ++ ips2) st =
    main_loop sys config ips2 (snd (main_loop sys config ips1 st)) /\
    events_of (main_loop sys config (ips1 ++ ips2)) st =
    (events_of (main_loop sys config ips1) st
       ++ events_of (main_loop sys config ips2)
                    (snd (main_loop sys config ips1 st)))%list.
Proof.
  intros W sys config ips1 ips2 st.
  assert (E : forall st0,
             main_loop sys config (ips1 ++ ips2) st0 =
             main_loop sys config ips2 (snd (main_loop sys config ips1 st0))).
  { induction ips1 as [|ip rest IH]; intros st0; cbn [app main_loop].
    - reflexivity.
    - unfold bind; cbn zeta. apply IH. }
  split; [apply E|].
  apply events_of_intro. rewrite E.
  destruct (emits_events st (emits_any_main_loop sys config ips1)) as [E1 _].
  destruct (emits_events (snd (main_loop sys config ips1 st))
              (emits_any_main_loop sys config ips2)) as [E2 _].
  rewrite E2, E1, app_assoc. reflexivity.
Qed.

(** ** The pipeline of one host *)

Section Pipeline.
Context {W : Type}.
Variable sys : System W.

Lemma emits_on_client_executeCommand client cmd :
  emits (on_client client) (executeCommand sys client cmd).
Proof.
  unfold executeCommand, NewSession, CombinedOutput, Session_Close.
  repeat emits_step.
Qed.

Ltac client_step :=
  match goal with
  | |- emits _ (executeCommand _ _ _) => apply emits_on_client_executeCommand
  | _ => emits_step
  end.

Lemma emits_on_client_checkSystemRequirements client :
  emits (on_client client) (checkSystemRequirements sys client).
Proof. unfold checkSystemRequirements, log_Printf. repeat client_step. Qed.

Lemma emits_on_client_setupKubernetes client config :
  emits (on_client client) (setupKubernetes sys client config).
Proof. unfold setupKubernetes, Sleep. repeat client_step. Qed.

Lemma emits_on_client_setupMonitoring client config :
  emits (on_client client) (setupMonitoring sys client config).
Proof. unfold setupMonitoring, run_or, WriteFile. repeat client_step. Qed.

Lemma emits_on_client_verifySetup client :
  emits (on_client client) (verifySetup sys client).
Proof. unfold verifySetup, log_Printf. repeat client_step. Qed.

Lemma emits_on_client_createBackup client :
  emits (on_client client) (createBackup sys client).
Proof. unfold createBackup, run_or. repeat client_step. Qed.

Lemma quiet_on_client client tr :
  Forall (fun e => ~ exec_event e) tr -> Forall (on_client client) tr.
Proof.
  apply Forall_impl. intros [] H; simpl in *; tauto.
Qed.

Lemma connect_quiet tr :
  Forall connect_event tr -> Forall (fun e => ~ exec_event e) tr.
Proof. apply Forall_impl. intros [] H; simpl in *; tauto. Qed.

Lemma save_quiet s st :
  Forall (fun e => ~ exec_event e) (events_of (saveStatus sys s) st).
Proof.
  destruct (emits_events st (emits_saveStatus sys s)) as [_ F].
  eapply Forall_impl; [|exact F]. intros [] H; simpl in *; tauto.
Qed.

(** A phase that ran from [st1] to [st2]: its events, with its result. *)
Lemma phase_run cmds (m : M W (option error)) client st1 r st2 :
  Stops cmds m -> emits (on_client client) m -> m st1 = (r, st2) ->
  exists tr,
    trace st2 = (trace st1 ++ tr)%list /\
    stops_at_first_failure cmds r (run_commands tr) /\
    Forall (on_client client) tr.
Proof.
  intros [Em Sm] Hc E.
  destruct (emits_events st1 Hc) as [T F].
  exists (events_of m st1). rewrite E in T. cbn [snd] in T.
  split; [exact T|]. split; [|exact F].
  specialize (Sm st1). rewrite E in Sm. exact Sm.
Qed.

Lemma stops_after pre rest later r runs :
  stops_at_first_failure rest r runs ->
  match r with
  | None => True
  | Some _ => stops_at_first_failure (pre ++ rest ++ later) r (ok_runs pre ++ runs)
  end.
Proof.
  destruct r as [err|]; [|trivial].
  intros (p & cmd & post & -> & H).
  exists (pre ++ p)%list, cmd, (post ++ later)%list.
  rewrite <- !app_assoc. split; [reflexivity|].
  rewrite ok_runs_app.
  destruct H as [-> | (e & ->)]; [left; reflexivity|].
  right. exists e. rewrite app_assoc. reflexivity.
Qed.

Lemma connect_run cfg st0 r st1 :
  connectSSH sys cfg st0 = (r, st1) ->
  exists tr,
    trace st1 = (trace st0 ++ tr)%list /\
    Forall connect_event tr /\
    opened tr = match r with Ok c => [c] | Err _ => [] end.
Proof.
  intros E.
  destruct (emits_events st0 (emits_connectSSH sys cfg)) as [T F].
  pose proof (connectSSH_opened sys cfg st0) as O.
  rewrite E in T, O. cbn [fst snd] in T, O.
  exists (events_of (connectSSH sys cfg) st0). auto.
Qed.

Variable config : Config.
Variable ip : string.
Variable st : St W.

Lemma reaches_commands c g st1 :
  Reaches sys config ip st c g st1 ->
  exists tr,
    trace st1 = (trace st ++ tr)%list /\
    run_commands tr = ok_runs (commands_upto config g) /\
    Forall (on_client c) tr /\
    opened tr = [c].
Proof.
  assert (PH : forall cmds (m : M W (option error)) pre st1 st2,
             (exists tr,
                 trace st1 = (trace st ++ tr)%list /\
                 run_commands tr = ok_runs pre /\
                 Forall (on_client c) tr /\ opened tr = [c]) ->
             Stops cmds m -> emits (on_client c) m -> emits phase_event m ->
             m st1 = (None, st2) ->
             exists tr,
               trace st2 = (trace st ++ tr)%list /\
               run_commands tr = ok_runs (pre ++ cmds) /\
               Forall (on_client c) tr /\ opened tr = [c]).
  { intros cmds m pre st1' st2 (tr1 & E1 & R1 & F1 & O1) Sm Hc Hp E.
    destruct (phase_run cmds m c st1' None st2 Sm Hc E) as (tr2 & E2 & R2 & F2).
    destruct (emits_at _ _ _ _ _ Hp E) as (tr3 & E3 & F3).
    assert (tr3 = tr2) by (rewrite E2 in E3; apply app_inv_head in E3; auto).
    subst tr3.
    exists (tr1 ++ tr2)%list. rewrite E2, E1, app_assoc.
    split; [reflexivity|]. split; [|split].
    - rewrite run_commands_app, R1, ok_runs_app. cbn in R2. rewrite R2. reflexivity.
    - apply Forall_app; auto.
    - rewrite opened_app, O1, (opened_phase tr2 F3). reflexivity. }
  induction 1 as [st1 Ec | st1 st2 R IH E | st1 st2 R IH E
                 | st1 st2 R IH E | st1 st2 R IH E].
  - destruct (connect_run _ _ _ _ Ec) as (tr & E & F & O).
    exists ([EvNow (start_time sys st);
             EvLoggerPrintf ("Starting setup for VM " ++ ip)] ++ tr)%list.
    assert (Q : Forall (fun e => ~ exec_event e)
                       ([EvNow (start_time sys st);
                         EvLoggerPrintf ("Starting setup for VM " ++ ip)]
                          ++ tr)).
    { apply Forall_app; split; [repeat constructor; simpl; tauto|].
      apply connect_quiet; auto. }
    cbn [snd defer_Close trace].
    rewrite E, start_state_trace, <- app_assoc.
    split; [reflexivity|]. split; [|split].
    + apply (run_commands_quiet _ Q).
    + apply quiet_on_client; exact Q.
    + cbn [app opened]. exact O.
  - apply (PH checkSystemRequirements_commands (checkSystemRequirements sys c)
             [] st1 st2 IH);
      auto using Stops_checkSystemRequirements,
        emits_on_client_checkSystemRequirements, emits_checkSystemRequirements.
  - apply (PH (setupKubernetes_commands config) (setupKubernetes sys c config)
             checkSystemRequirements_commands st1 st2 IH);
      auto using Stops_setupKubernetes,
        emits_on_client_setupKubernetes, emits_setupKubernetes.
  - cbn [commands_upto]. rewrite app_assoc.
    apply (PH (setupMonitoring_commands config) (setupMonitoring sys c config)
             (checkSystemRequirements_commands ++ setupKubernetes_commands config)%list
             st1 st2 IH);
      auto using Stops_setupMonitoring,
        emits_on_client_setupMonitoring, emits_setupMonitoring.
  - cbn [commands_upto]. rewrite !app_assoc.
    apply (PH verifySetup_commands (verifySetup sys c)
             ((checkSystemRequirements_commands ++ setupKubernetes_commands config)
                ++ setupMonitoring_commands config)%list
             st1 st2).
    + rewrite <- app_assoc. exact IH.
    + apply Stops_verifySetup.
    + apply emits_on_client_verifySetup.
    + apply emits_verifySetup.
    + exact E.
Qed.
End Pipeline.

Section HostPipeline.
Context {W : Type}.
Variable sys : System W.
Variable config : Config.
Variable ip : string.
Variable st : St W.

Lemma quiet_tail s ex : Forall (fun e => ~ exec_event e) (host_tail s ex).
Proof.
  destruct ex as [| | | | |[err|]]; repeat constructor; simpl; tauto.
Qed.

Lemma quiet_finish ex : Forall (fun e => ~ exec_event e) (finish ip ex).
Proof. destruct ex; repeat constructor; simpl; tauto. Qed.

Lemma opened_quiet_tail s ex : opened (host_tail s ex) = [].
Proof. destruct ex as [| | | | |[err|]]; reflexivity. Qed.

Lemma opened_finish ex : opened (finish ip ex) = [].
Proof. destruct ex; reflexivity. Qed.

(** A phase run from a reached stage, seen from the start of the
    iteration. *)
Lemma phase_from_stage g cmds later (m : M W (option error)) c stR r st2 :
  Reaches sys config ip st c g stR ->
  Stops cmds m -> emits (on_client c) m -> emits phase_event m ->
  m stR = (r, st2) ->
  pipeline_commands config = (commands_upto config g ++ cmds ++ later)%list ->
  (r = None -> later = []) ->
  exists pre,
    trace st2 = (trace st ++ pre)%list /\
    opened pre = [c] /\
    Forall (on_client c) pre /\
    stops_at_first_failure (pipeline_commands config) r (run_commands pre).
Proof.
  intros R Sm Hc Hp E EP L.
  destruct (reaches_commands _ _ _ _ _ _ _ R) as (tr1 & E1 & R1 & F1 & O1).
  destruct (phase_run cmds m c stR r st2 Sm Hc E) as (tr2 & E2 & R2 & F2).
  destruct (emits_at _ _ _ _ _ Hp E) as (tr3 & E3 & F3).
  assert (tr3 = tr2) by (rewrite E2 in E3; apply app_inv_head in E3; auto).
  subst tr3.
  exists (tr1 ++ tr2)%list. rewrite E2, E1, app_assoc.
  split; [reflexivity|]. split; [|split].
  - rewrite opened_app, O1, (opened_phase tr2 F3). reflexivity.
  - apply Forall_app; auto.
  - rewrite run_commands_app, R1, EP.
    destruct r as [err|].
    + apply (stops_after (commands_upto config g) cmds later (Some err) _ R2).
    + rewrite (L eq_refl), app_nil_r. unfold stops_at_first_failure in *.
      rewrite ok_runs_app, R2. reflexivity.
Qed.

Lemma host_run_pipeline s ex st1 st' :
  HostRun sys config ip st s ex st1 st' ->
  match ex with
  | ExitConnect _ =>
      run_commands (events_of (main_loop_body sys config ip) st) = [] /\
      opened (events_of (main_loop_body sys config ip) st) = []
  | _ =>
      exists c,
        opened (events_of (main_loop_body sys config ip) st) = [c] /\
        Forall (on_client c) (events_of (main_loop_body sys config ip) st) /\
        stops_at_first_failure (pipeline_commands config) (pipeline_result ex)
          (run_commands (events_of (main_loop_body sys config ip) st))
  end.
Proof.
  intros R.
  destruct (main_loop_body_events _ _ _ _ _ _ _ _ R) as (pre & Ev & Ep & _).
  assert (RC : run_commands (events_of (main_loop_body sys config ip) st)
               = run_commands pre).
  { rewrite Ev, !run_commands_app, (run_commands_quiet _ (save_quiet sys s st1)),
      (run_commands_quiet _ (quiet_finish ex)), !app_nil_r. reflexivity. }
  assert (OP : opened (events_of (main_loop_body sys config ip) st) = opened pre).
  { rewrite Ev, !opened_app, opened_save, opened_finish, !app_nil_r. reflexivity. }
  assert (OC : forall c, Forall (on_client c) pre ->
                         Forall (on_client c)
                                (events_of (main_loop_body sys config ip) st)).
  { intros c F. rewrite Ev. repeat (apply Forall_app; split); auto.
    - apply quiet_on_client, save_quiet.
    - apply quiet_on_client, quiet_finish. }
  rewrite RC, OP. clear Ev RC OP.
  assert (DONE : forall c pre0 r,
             trace st1 = (trace st ++ pre0)%list ->
             opened pre0 = [c] -> Forall (on_client c) pre0 ->
             stops_at_first_failure (pipeline_commands config) r (run_commands pre0) ->
             exists c0,
               opened pre = [c0] /\
               Forall (on_client c0) (events_of (main_loop_body sys config ip) st) /\
               stops_at_first_failure (pipeline_commands config) r (run_commands pre)).
  { intros c pre0 r E0 O0 F0 S0. rewrite Ep in E0. apply app_inv_head in E0.
    subst pre0. exists c. auto. }
  destruct R as [err st1 s Ec Es | client st1 err st2 s R E Es
                | client st1 err st2 s R E Es | client st1 err st2 s R E Es
                | client st1 err st2 s R E Es
                | client st1 b st2 st3 s R E E3 Es].
  - destruct (connect_run _ _ _ _ _ Ec) as (tr & E & F & O).
    rewrite E, start_state_trace, <- app_assoc in Ep. apply app_inv_head in Ep.
    subst pre. cbn [app run_commands opened]. split; [|exact O].
    apply run_commands_quiet, connect_quiet, F.
  - destruct (phase_from_stage Connected checkSystemRequirements_commands
                (setupKubernetes_commands config ++ setupMonitoring_commands config
                   ++ verifySetup_commands ++ createBackup_commands)%list
                (checkSystemRequirements sys client) client st1 (Some err) st2 R
                (Stops_checkSystemRequirements sys client)
                (emits_on_client_checkSystemRequirements sys client)
                (emits_checkSystemRequirements sys client) E eq_refl)
      as (pre0 & E0 & O0 & F0 & S0); [discriminate|].
    apply (DONE client pre0 (Some err)); auto.
  - destruct (phase_from_stage Checked (setupKubernetes_commands config)
                (setupMonitoring_commands config
                   ++ verifySetup_commands ++ createBackup_commands)%list
                (setupKubernetes sys client config) client st1 (Some err) st2 R
                (Stops_setupKubernetes sys client config)
                (emits_on_client_setupKubernetes sys client config)
                (emits_setupKubernetes sys client config) E eq_refl)
      as (pre0 & E0 & O0 & F0 & S0); [discriminate|].
    apply (DONE client pre0 (Some err)); auto.
  - destruct (phase_from_stage Installed (setupMonitoring_commands config)
                (verifySetup_commands ++ createBackup_commands)%list
                (setupMonitoring sys client config) client st1 (Some err) st2 R
                (Stops_setupMonitoring sys client config)
                (emits_on_client_setupMonitoring sys client config)
                (emits_setupMonitoring sys client config) E)
      as (pre0 & E0 & O0 & F0 & S0);
      [unfold pipeline_commands; cbn [commands_upto];
       rewrite <- !app_assoc; reflexivity | discriminate |].
    apply (DONE client pre0 (Some err)); auto.
  - destruct (phase_from_stage Monitored verifySetup_commands createBackup_commands
                (verifySetup sys client) client st1 (Some err) st2 R
                (Stops_verifySetup sys client)
                (emits_on_client_verifySetup sys client)
                (emits_verifySetup sys client) E)
      as (pre0 & E0 & O0 & F0 & S0);
      [unfold pipeline_commands; cbn [commands_upto];
       rewrite <- !app_assoc; reflexivity | discriminate |].
    apply (DONE client pre0 (Some err)); auto.
  - destruct (phase_from_stage Verified createBackup_commands []
                (createBackup sys client) client st1 b st2 R
                (Stops_createBackup sys client)
                (emits_on_client_createBackup sys client)
                (emits_createBackup sys client) E)
      as (pre0 & E0 & O0 & F0 & S0);
      [unfold pipeline_commands; cbn [commands_upto];
       rewrite <- !app_assoc, app_nil_r; reflexivity | reflexivity |].
    cbn [pipeline_result].
    assert (T : trace st3 = (trace st2 ++ host_tail s (ExitEnd b))%list).
    { subst st3 s. destruct b; cbn [host_tail completed EndTime after_backup];
        unfold Now, logger_Printf, call, act; cbn [fst snd trace world];
        rewrite <- ?app_assoc; reflexivity. }
    apply (DONE client (pre0 ++ host_tail s (ExitEnd b))%list b).
    + rewrite T, E0, app_assoc. reflexivity.
    + rewrite opened_app, O0, opened_quiet_tail. reflexivity.
    + apply Forall_app; split; auto. apply quiet_on_client, quiet_tail.
    + rewrite run_commands_app, (run_commands_quiet _ (quiet_tail s (ExitEnd b))),
        app_nil_r. exact S0.
Qed.
End HostPipeline.

(** X18.  One host run works through the commands of the five phases as
    through one list (requirement check, Kubernetes, monitoring,
    verification, backup: 38 commands) and stops at the first failure: no
    phase is started after a phase that failed, the commands run are a prefix
    of that list, all successful except possibly the last one, and they are
    the whole list exactly when the backup succeeded too.  When the
    connection fails no command is run at all. *)
Theorem X18_host_pipeline_stops_at_first_failure :
  forall W (sys : System W) config ip st,
    match snd (fst (main_loop_body sys config ip st)) with
    | ExitConnect _ =>
        run_commands (events_of (main_loop_body sys config ip) st) = []
    | ex =>
        stops_at_first_failure (pipeline_commands config) (pipeline_result ex)
          (run_commands (events_of (main_loop_body sys config ip) st))
    end.
Proof.
  intros W sys config ip st.
  destruct (main_loop_body_run sys config ip st) as (st1 & R).
  pose proof (host_run_pipeline _ _ _ _ _ _ _ _ R) as H.
  destruct (snd (fst (main_loop_body sys config ip st)));
    try (destruct H as (c & _ & _ & H); exact H).
  apply H.
Qed.

(** X19.  In one host's iteration there is at most one successful dial, and
    every session of the iteration is opened on the client that this dial
    returned: although the connections of earlier hosts are still open, no
    command of a host goes to another host's connection. *)
Theorem X19_sessions_use_the_connection_of_their_host :
  forall W (sys : System W) config ip st,
    (length (opened (events_of (main_loop_body sys config ip) st)) <= 1)%nat /\
    forall c res,
      In (EvNewSession c res) (events_of (main_loop_body sys config ip) st) ->
      opened (events_of (main_loop_body sys config ip) st) = [c].
Proof.
  intros W sys config ip st.
  split; [apply main_loop_body_defers|].
  intros c res HIn.
  destruct (main_loop_body_run sys config ip st) as (st1 & R).
  pose proof (host_run_pipeline _ _ _ _ _ _ _ _ R) as H.
  assert (NC : run_commands (events_of (main_loop_body sys config ip) st) = [] ->
               Forall (fun e => ~ exec_event e)
                      (events_of (main_loop_body sys config ip) st) -> False).
  { intros _ F. rewrite Forall_forall in F. apply (F _ HIn). exact I. }
  destruct (snd (fst (main_loop_body sys config ip st))).
  1:{ exfalso.
      destruct (main_loop_body_events _ _ _ _ _ _ _ _ R) as (pre & Ev & _ & _ & NE & _).
      apply NC; [apply H|]. rewrite Ev.
      repeat (apply Forall_app; split).
      - eapply NE; reflexivity.
      - apply save_quiet.
      - constructor. }
  all: destruct H as (c0 & O & F & _); rewrite O;
    rewrite Forall_forall in F; specialize (F _ HIn); cbn in F; congruence.
Qed.

(** The third requirement command fails on a host served while client 3 of
    an earlier host is still open: the sessions are on client 7, which this
    iteration dialled. *)
Lemma X19_sessions_use_the_connection_of_their_host_witness :
  let sys := Script.sys [] ["df -h"] false in
  let st := mkSt 5 [] [3] in
  In (EvNewSession 7 (Ok 8)) (events_of (main_loop_body sys Script.config "h1") st) /\
  opened (events_of (main_loop_body sys Script.config "h1") st) = [7].
Proof.
  intros sys st.
  assert (HIn : In (EvNewSession 7 (Ok 8))
                   (events_of (main_loop_body sys Script.config "h1") st))
    by (vm_compute; do 3 right; left; reflexivity).
  split; [exact HIn|].
  exact (proj2 (X19_sessions_use_the_connection_of_their_host
                  nat sys Script.config "h1" st) 7 (Ok 8) HIn).
Defined.
